(** * TelegramParserApi: channel-info retrieval and snapshot persistence

    A shallow embedding of [parser/src/parser.py] (class [Parser]) and of
    [database/src/database.py] (class [Database]), with the properties the
    specification states about them.

    Conventions.
    - Instants and durations are integers counting microseconds, the
      resolution of Python's [datetime].
    - Coroutines run in a small monad [M] over a [world] holding the clock,
      the deadline installed by [asyncio.wait_for] and the chronological
      trace of the awaited calls.  A raised exception keeps the effects that
      happened before it, as in Python.
    - The remote platform (Telethon's client) is a record of oracles; each
      answers from the instant and the trace at which it is asked. *)

From Stdlib Require Import ZArith String Ascii Bool List Lia.
From stdpp Require Import base option list gmap sorting.
Import ListNotations.

Local Open Scope string_scope.
Local Open Scope Z_scope.

(** ** Python built-ins used by both services *)

Module Py.

(** [strip_prefix p s] is [Some r] exactly when [s = p ++ r]. *)
Fixpoint strip_prefix (p s : string) : option string :=
  match p, s with
  | EmptyString, _ => Some s
  | String a p', String b s' =>
      if Ascii.eqb a b then strip_prefix p' s' else None
  | String _ _, EmptyString => None
  end.

(** [s.startswith(p)] *)
Definition startswith (s p : string) : bool :=
  match strip_prefix p s with Some _ => true | None => false end.

(** [s.removeprefix(p)] *)
Definition removeprefix (s p : string) : string :=
  match strip_prefix p s with Some r => r | None => s end.

(** [s.split(sep)] for a one-character separator; never the empty list. *)
Fixpoint split (sep : ascii) (s : string) : list string :=
  match s with
  | EmptyString => [EmptyString]
  | String c s' =>
      if Ascii.eqb c sep then EmptyString :: split sep s'
      else match split sep s' with
           | [] => [String c EmptyString]
           | h :: t => String c h :: t
           end
  end.

(** [l[-1]] on a list of strings. *)
Definition last_item (l : list string) : string := List.last l EmptyString.

(** [s[1:]] *)
Definition drop_first (s : string) : string :=
  match s with EmptyString => EmptyString | String _ s' => s' end.

End Py.

(** The scheme-stripping statement that occurs verbatim in
    [Parser.get_channel] (lines 61-64) and in
    [Database.get_channel_by_link] (lines 83-86):
    [if s.startswith('https://'): s = s.removeprefix('https://')
     elif s.startswith('http://'): s = s.removeprefix('http://')]. *)
Definition strip_scheme (s : string) : string :=
  if Py.startswith s "https://" then Py.removeprefix s "https://"
  else if Py.startswith s "http://" then Py.removeprefix s "http://"
  else s.

(** [shared_models.Channel] *)
Record ChannelInfo := {
  channel_id : Z;
  link : string;
  name : string;
  description : string;
  subscribers : Z;
  views : Z;
  posts_count : Z
}.

(** ** The persistence service ([database/src/database.py]) *)

Module Database.

(** A row of the [Channel] table; the primary key [id] is the key of the
    map below. *)
Record ChannelRow := {
  row_name : string;
  row_description : string;
  row_link : string
}.

(** A row of the [ChannelStatistics] table, with the fields the service
    reads and writes; [stat_channel] is the foreign key. *)
Record StatRow := {
  stat_channel : Z;
  stat_subscribers : Z;
  stat_views_24h : Z;
  stat_posts_count : Z;
  stat_recorded_at : Z
}.

(** The two tables.  Statistics rows are kept in insertion order. *)
Record db := {
  channels : gmap Z ChannelRow;
  statistics : list StatRow
}.

Definition empty_db : db := {| channels := ∅; statistics := [] |}.

(** What a lookup is keyed by: [request.channel_id] or the normalized link. *)
Inductive key :=
| KId (id : Z)
| KLink (l : string).

(** [shared_models.database.errors], and the one ORM exception that
    [get_channel_by_link] lets through. *)
Inductive error :=
| ChannelDoesNotExistError (k : key)
| StatsDoesNotExistError (k : key)
| MultipleObjectsReturned.

Inductive result (A : Type) :=
| Ok (a : A)
| Err (e : error).
Arguments Ok {A} a.
Arguments Err {A} e.

(** [GetChannelResponse] and [GetChannelByLinkResponse] carry the same two
    fields. *)
Record GetChannelResponse := {
  last_update : Z;
  channel : ChannelInfo
}.

Record UpdateOrCreateChannelResponse := {
  record_created : bool
}.

(** [ChannelStatistics.filter(channel=channel)] *)
Definition stats_of (d : db) (id : Z) : list StatRow :=
  filter (fun s => stat_channel s = id) (statistics d).

(** [.order_by("-recorded_at").first()]: a row with the greatest
    [recorded_at], the earliest inserted among equals; [None] on no row. *)
Fixpoint newest (l : list StatRow) : option StatRow :=
  match l with
  | [] => None
  | s :: rest =>
      match newest rest with
      | None => Some s
      | Some s' =>
          if stat_recorded_at s' <=? stat_recorded_at s then Some s
          else Some s'
      end
  end.

(** [Channel.get(link=link)]: the rows carrying the link. *)
Definition channels_with_link (d : db) (l : string) : list (Z * ChannelRow) :=
  map_to_list (filter (fun kv => row_link (snd kv) = l) (channels d)).

(** [int(t.timestamp())]: the whole seconds of an instant counted in
    microseconds, rounded towards zero. *)
Definition whole_seconds (t : Z) : Z := t ÷ 1000000.

(** The response both lookups build from the channel row and its newest
    statistics row (lines 67-77 and 97-106). *)
Definition response (id : Z) (c : ChannelRow) (s : StatRow) : GetChannelResponse :=
  {| last_update := whole_seconds (stat_recorded_at s);
     channel := {| channel_id := id;
                   link := row_link c;
                   name := row_name c;
                   description := row_description c;
                   subscribers := stat_subscribers s;
                   views := stat_views_24h s;
                   posts_count := stat_posts_count s |} |}.

(** [Database.update_or_create_channel]; [now] is the instant the new
    statistics row is stamped with. *)
Definition update_or_create_channel (d : db) (now : Z) (ch : ChannelInfo)
  : db * UpdateOrCreateChannelResponse :=
  let created := bool_decide (channels d !! channel_id ch = None) in
  let row := {| row_name := name ch;
                row_description := description ch;
                row_link := link ch |} in
  let stat := {| stat_channel := channel_id ch;
                 stat_subscribers := subscribers ch;
                 stat_views_24h := views ch;
                 stat_posts_count := posts_count ch;
                 stat_recorded_at := now |} in
  ({| channels := <[channel_id ch := row]> (channels d);
      statistics := statistics d ++ [stat] |},
   {| record_created := created |}).

(** [Database.get_channel] *)
Definition get_channel (d : db) (id : Z) : result GetChannelResponse :=
  match channels d !! id with
  | None => Err (ChannelDoesNotExistError (KId id))
  | Some c =>
      match newest (stats_of d id) with
      | None => Err (StatsDoesNotExistError (KId id))
      | Some s => Ok (response id c s)
      end
  end.

(** [Database.get_channel_by_link] *)
Definition get_channel_by_link (d : db) (channel_link : string)
  : result GetChannelResponse :=
  let l := strip_scheme channel_link in
  match channels_with_link d l with
  | [] => Err (ChannelDoesNotExistError (KLink l))
  | [(id, c)] =>
      match newest (stats_of d id) with
      | None => Err (StatsDoesNotExistError (KLink l))
      | Some s => Ok (response id c s)
      end
  | _ :: _ :: _ => Err MultipleObjectsReturned
  end.

(** A run of successive [update_or_create_channel] calls. *)
Definition apply_updates (d : db) (us : list (Z * ChannelInfo)) : db :=
  fold_left (fun d u => fst (update_or_create_channel d (fst u) (snd u))) us d.

(** [Database.get_channels_ids]: the primary keys of the channel table. *)
Definition get_channels_ids (d : db) : list Z :=
  fst <$> map_to_list (channels d).

(** [StatisticsSorting]: the service tests for [NEWEST] only; every other
    value asks for the oldest first. *)
Inductive StatisticsSorting :=
| NEWEST
| OLDEST.

(** [StatisticsItem] *)
Record StatisticsItem := {
  item_views : Z;
  item_subscribers : Z;
  item_posts_count : Z;
  item_time : Z
}.

Record Get24hStatisticsResponse := {
  sorting : StatisticsSorting;
  data : list StatisticsItem
}.

(** The two orders of [order_by]: ["recorded_at"] and ["-recorded_at"]. *)
Definition recorded_earlier (a b : StatRow) : Prop :=
  stat_recorded_at a <= stat_recorded_at b.

Definition recorded_later (a b : StatRow) : Prop :=
  stat_recorded_at b <= stat_recorded_at a.

#[global] Instance recorded_earlier_dec : RelDecision recorded_earlier :=
  fun a b => Z_le_dec (stat_recorded_at a) (stat_recorded_at b).

#[global] Instance recorded_later_dec : RelDecision recorded_later :=
  fun a b => Z_le_dec (stat_recorded_at b) (stat_recorded_at a).

(** [ChannelStatistics.filter(channel=channel).order_by(order)] *)
Definition ordered_stats (d : db) (id : Z) (s : StatisticsSorting) : list StatRow :=
  match s with
  | NEWEST => merge_sort recorded_later (stats_of d id)
  | OLDEST => merge_sort recorded_earlier (stats_of d id)
  end.

(** The item built from a statistics row (lines 126-131). *)
Definition item_of (s : StatRow) : StatisticsItem :=
  {| item_views := stat_views_24h s;
     item_subscribers := stat_subscribers s;
     item_posts_count := stat_posts_count s;
     item_time := whole_seconds (stat_recorded_at s) |}.

(** [Database.get_24h_statistics] *)
Definition get_24h_statistics (d : db) (id : Z) (s : StatisticsSorting)
  : result Get24hStatisticsResponse :=
  match channels d !! id with
  | None => Err (ChannelDoesNotExistError (KId id))
  | Some _ =>
      Ok {| sorting := s; data := item_of <$> ordered_stats d id s |}
  end.

End Database.

(** ** The retrieval service ([parser/src/parser.py]) *)

Module Parser.

(** *** Time *)

Definition seconds (n : Z) : Z := n * 1000000.
Definition hours (n : Z) : Z := seconds (n * 3600).

(** A [datetime]: the reading of its calendar fields, counted from the
    epoch, and the UTC offset of its [tzinfo] when it has one. *)
Record datetime := {
  wall : Z;
  tzinfo : option Z
}.

Definition UTC : Z := 0.

(** [datetime.now(UTC)] at instant [t] *)
Definition now_utc (t : Z) : datetime := {| wall := t; tzinfo := Some UTC |}.

(** [d.replace(tzinfo=tz)] *)
Definition replace_tzinfo (d : datetime) (tz : Z) : datetime :=
  {| wall := wall d; tzinfo := Some tz |}.

(** [d - timedelta] *)
Definition minus_delta (d : datetime) (delta : Z) : datetime :=
  {| wall := wall d - delta; tzinfo := tzinfo d |}.

(** [d.timestamp()]; a naive [datetime] is read in the zone of the host,
    whose offset is [local]. *)
Definition timestamp (local : Z) (d : datetime) : Z :=
  match tzinfo d with
  | Some off => wall d - off
  | None => wall d - local
  end.

(** *** Telethon's values and exceptions *)

(** [types.Channel] *)
Record Channel := {
  entity_id : Z;
  title : string
}.

(** [ChatFull.full_chat] *)
Record ChatFull := {
  full_chat_id : Z;
  about : string;
  participants_count : Z
}.

(** [types.Message] *)
Record Message := {
  date : datetime;
  message_views : option Z
}.

Definition bytes := list Byte.byte.

(** The exceptions the module names or raises.  Each stands for its class
    and the subclasses of it; [OtherError] is any other subclass of
    [Exception].  The last five are what the service itself raises: the
    classes of [shared_models.parser.errors] and the built-in
    [TimeoutError].  From Python 3.11 on [asyncio.TimeoutError] is the
    built-in [TimeoutError]: [AsyncioTimeoutError] is an instance raised
    by [asyncio], [TimeoutError] one raised with a message, by the
    service or by the client, and a clause for either class catches
    both. *)
Inductive exn :=
| ValueError (msg : string)
| FloodWaitError (wait : Z) (msg : string)
| UserAlreadyParticipantError (msg : string)
| InviteRequestSentError (msg : string)
| InviteHashExpiredError (msg : string)
| UserDeactivatedBanError (msg : string)
| AsyncioTimeoutError
| OtherError (msg : string)
| FloodWait (wait : Z)
| InvalidChannelLink (l : string) (msg : string)
| UserBan (msg : string)
| CannotGetChannelInfo (l : string)
| TimeoutError (msg : string).

(** [str(e)] *)
Definition str (e : exn) : string :=
  match e with
  | ValueError m | FloodWaitError _ m | UserAlreadyParticipantError m
  | InviteRequestSentError m | InviteHashExpiredError m
  | UserDeactivatedBanError m | OtherError m | InvalidChannelLink _ m
  | UserBan m | TimeoutError m => m
  | CannotGetChannelInfo l => l
  | AsyncioTimeoutError | FloodWait _ => ""
  end.

(** The closed taxonomy of section 7 of the specification: RateLimited,
    AccountBanned, InvalidChannelReference, ChannelInfoUnavailable and
    Timeout. *)
Definition in_taxonomy (e : exn) : bool :=
  match e with
  | FloodWait _ | UserBan _ | InvalidChannelLink _ _
  | CannotGetChannelInfo _ | TimeoutError _ => true
  | _ => false
  end.

(** Raised by the Telethon client, not by the service. *)
Definition remote_library_error (e : exn) : bool :=
  match e with
  | FloodWaitError _ _ | UserAlreadyParticipantError _
  | InviteRequestSentError _ | InviteHashExpiredError _
  | UserDeactivatedBanError _ => true
  | _ => false
  end.

(** *** Coroutines *)

(** What a coroutine awaits. *)
Inductive call :=
| GetEntity (l : string)
| ImportChatInvite (invite_hash : string)
| Sleep (d : Z)
| GetFullChannel (c : Channel)
| IterMessages (c : Channel) (offset_date : datetime)
| NextMessage
| DownloadProfilePhoto (c : Channel)
| GetClient
| MarkAsBan
| ReleaseClient.

(** How an awaited call ended: it returned, it raised, or the deadline
    fired while it was pending. *)
Inductive status :=
| Returned
| Raised (e : exn)
| Interrupted.

Definition event : Type := call * status.

Record world := {
  clock : Z;
  deadline : option Z;
  trace : list event
}.

(** [Cancelled] is [asyncio.CancelledError], a [BaseException]: no
    [except Exception] clause of the module catches it. *)
Inductive outcome (A : Type) :=
| Ok (a : A)
| Raise (e : exn)
| Cancelled.
Arguments Ok {A} a.
Arguments Raise {A} e.
Arguments Cancelled {A}.

Definition M (A : Type) : Type := world -> outcome A * world.

Definition ret {A} (a : A) : M A := fun w => (Ok a, w).

Definition raise {A} (e : exn) : M A := fun w => (Raise e, w).

Definition bind {A B} (m : M A) (k : A -> M B) : M B := fun w =>
  match m w with
  | (Ok a, w') => k a w'
  | (Raise e, w') => (Raise e, w')
  | (Cancelled, w') => (Cancelled, w')
  end.

Notation "'let*' x ':=' m 'in' k" := (bind m (fun x => k))
  (at level 10, x pattern, m at level 100, k at level 200).

(** [try: m  except ...]: [handler e] is the body of the first clause
    that matches [e], [None] when no clause does.  An exception raised by
    that body leaves the statement: the later clauses do not see it. *)
Definition try_except {A} (m : M A) (handler : exn -> option (M A)) : M A := fun w =>
  match m w with
  | (Raise e, w') =>
      match handler e with
      | Some k => k w'
      | None => (Raise e, w')
      end
  | r => r
  end.

(** [try: m  finally: f], for an [f] that adds its effects and passes the
    outcome of [m] on. *)
Definition finally {A} (m : M A) (f : world -> world) : M A := fun w =>
  match m w with
  | (o, w') => (o, f w')
  end.

Definition record (c : call) (s : status) (t : Z) (w : world) : world :=
  {| clock := t; deadline := deadline w; trace := trace w ++ [(c, s)] |}.

Definition expired (d : option Z) (t : Z) : bool :=
  match d with
  | Some d => d <=? t
  | None => false
  end.

(** An answer of the remote platform, after [latency] microseconds. *)
Inductive answer (A : Type) :=
| Returns (a : A)
| Raises (e : exn).
Arguments Returns {A} a.
Arguments Raises {A} e.

Record reply (A : Type) := {
  latency : N;
  result : answer A
}.
Arguments latency {A} r.
Arguments result {A} r.

(** [await] of a call that is answered by [r]: when the deadline does
    not fall after the answer, the coroutine is cancelled at the
    deadline. *)
Definition await {A} (c : call) (r : reply A) : M A := fun w =>
  let t := clock w + Z.of_N (latency r) in
  if expired (deadline w) t then
    (Cancelled, record c Interrupted (Z.max (clock w) (default t (deadline w))) w)
  else
    match result r with
    | Returns a => (Ok a, record c Returned t w)
    | Raises e => (Raise e, record c (Raised e) t w)
    end.

(** A call whose answer the platform decides from the present instant and
    from what happened so far. *)
Definition ask {A} (c : call) (oracle : Z -> list event -> reply A) : M A := fun w =>
  await c (oracle (clock w) (trace w)) w.

(** [asyncio.sleep(d)] *)
Definition sleep (d : Z) : M unit :=
  await (Sleep d) {| latency := Z.to_N d; result := Returns tt |}.

(** The present instant. *)
Definition now : M Z := fun w => (Ok (clock w), w).

(** [asyncio.wait_for(m, timeout)], for the one deadline the service
    installs: the coroutine cancelled at the deadline becomes
    [asyncio.TimeoutError]. *)
Definition wait_for {A} (m : M A) (timeout : Z) : M A := fun w =>
  let w0 := {| clock := clock w;
               deadline := Some (clock w + timeout);
               trace := trace w |} in
  match m w0 with
  | (o, w') =>
      let w1 := {| clock := clock w'; deadline := deadline w; trace := trace w' |} in
      match o with
      | Cancelled => (Raise AsyncioTimeoutError, w1)
      | _ => (o, w1)
      end
  end.

(** [async for x in stream: body], with [break]: [body x s] is [None] on
    [break] and the next loop state otherwise.  Each item is awaited; an
    item that raises ends the loop with its exception. *)
Fixpoint async_for {A St} (stream : list (reply A)) (body : A -> St -> option St)
    (s : St) : M St :=
  match stream with
  | [] => ret s
  | r :: rest =>
      let* x := await NextMessage r in
      match body x s with
      | None => ret s
      | Some s' => async_for rest body s'
      end
  end.

(** *** The remote platform *)

(** The Telethon client of one session: what each request is answered,
    given the instant and the trace at which it is made.  [get_entity]
    answers [None] for a result that Python reads as false. *)
Record Telegram := {
  local_utcoffset : Z;
  get_entity : Z -> list event -> string -> reply (option Channel);
  import_chat_invite : Z -> list event -> string -> reply unit;
  get_full_channel : Z -> list event -> Channel -> reply ChatFull;
  iter_messages : Z -> list event -> Channel -> datetime -> list (reply Message);
  download_profile_photo : Z -> list event -> Channel -> reply (option bytes)
}.

(** *** Requests and responses *)

Record GetChannelInfoRequest := {
  channel_link : string;
  get_logo : bool
}.

Record GetChannelInfoResponse := {
  channel : ChannelInfo;
  logo : option bytes
}.

(** *** The methods of [Parser] *)

Section Methods.

Variable client : Telegram.

Definition client_get_entity (l : string) : M (option Channel) :=
  ask (GetEntity l) (fun t tr => get_entity client t tr l).

(** The [for _ in range(3)] loop of [join_private_channel] (lines 51-56):
    [Some r] when an iteration returns [r], [None] when the loop ends. *)
Fixpoint poll (n : nat) (url : string) : M (option (option Channel)) :=
  match n with
  | O => ret None
  | S n' =>
      let* _ := sleep (seconds 10) in
      let* r :=
        try_except
          (let* e := client_get_entity url in ret (Some e))
          (fun e => match e with
                    | ValueError _ => Some (ret None)
                    | _ => None
                    end) in
      match r with
      | Some e => ret (Some e)
      | None => poll n' url
      end
  end.

(** The invite hash of a reference (lines 43-45). *)
Definition invite_hash_of (url : string) : string :=
  let invite_hash := Py.last_item (Py.split "/" url) in
  if Py.startswith invite_hash "+" then Py.drop_first invite_hash
  else invite_hash.

(** [Parser.join_private_channel] *)
Definition join_private_channel (url : string) : M (option Channel) :=
  let invite_hash := invite_hash_of url in
  let* returned :=
    try_except
      (let* _ := ask (ImportChatInvite invite_hash)
                     (fun t tr => import_chat_invite client t tr invite_hash) in
       ret None)
      (fun e => match e with
                | UserAlreadyParticipantError _ =>
                    Some (let* e := client_get_entity url in ret (Some e))
                | InviteRequestSentError _ => Some (poll 3 url)
                | _ => None
                end) in
  match returned with
  | Some e => ret e
  | None => client_get_entity url
  end.

(** [Parser.get_channel_entity] *)
Definition get_channel_entity (l : string) : M Channel :=
  let* channel_entity :=
    try_except (client_get_entity l)
      (fun e =>
         match e with
         | ValueError _ =>
             Some (try_except (join_private_channel l)
                     (fun e' =>
                        match e' with
                        | InviteHashExpiredError _ =>
                            Some (raise (InvalidChannelLink l (str e')))
                        | FloodWaitError s _ => Some (raise (FloodWait s))
                        | UserDeactivatedBanError _ =>
                            Some (raise (UserBan (str e')))
                        | _ => None
                        end))
         | FloodWaitError s _ => Some (raise (FloodWait s))
         | _ => Some (raise (InvalidChannelLink l (str e)))
         end) in
  match channel_entity with
  | None => raise (CannotGetChannelInfo l)
  | Some c => ret c
  end.

(** The body of the loop of [__get_posts] (lines 86-91) on the loop state
    [(views, count)]. *)
Definition scan_post (end_date : datetime) (post : Message) (s : Z * Z)
  : option (Z * Z) :=
  let views := fst s in
  let count := snd s in
  let post_date :=
    match tzinfo (date post) with
    | None => replace_tzinfo (date post) UTC
    | Some _ => date post
    end in
  if timestamp (local_utcoffset client) post_date
       <? timestamp (local_utcoffset client) end_date
  then None
  else
    let views := match message_views post with
                 | Some v => v
                 | None => views
                 end in
    Some (views, count + 1).

(** [Parser.__get_posts] *)
Definition __get_posts (entity : Channel) : M (Z * Z) :=
  let* t := now in
  let start_date := now_utc t in
  let end_date := minus_delta start_date (hours 24) in
  fun w =>
    let stream := iter_messages client (clock w) (trace w) entity start_date in
    async_for stream (scan_post end_date) (0, 0)
      (record (IterMessages entity start_date) Returned (clock w) w).

(** [Parser.get_channel] *)
Definition get_channel (entity : Channel) (url : string) : M ChannelInfo :=
  let* channel_info :=
    ask (GetFullChannel entity) (fun t tr => get_full_channel client t tr entity) in
  let url := strip_scheme url in
  let* (views, count) := __get_posts entity in
  ret {| channel_id := full_chat_id channel_info;
         link := url;
         name := title entity;
         description := about channel_info;
         subscribers := participants_count channel_info;
         views := views;
         posts_count := count |}.

(** [Parser._get_channel_info_internal] *)
Definition _get_channel_info_internal (request : GetChannelInfoRequest)
  : M GetChannelInfoResponse :=
  let* entity := get_channel_entity (channel_link request) in
  let* logo :=
    if get_logo request then
      try_except
        (ask (DownloadProfilePhoto entity)
             (fun t tr => download_profile_photo client t tr entity))
        (fun _ => Some (ret None))
    else ret None in
  let* channel := get_channel entity (channel_link request) in
  ret {| channel := channel; logo := logo |}.

(** Modelled from the spec: the session pool of the module [.telegram],
    which is not part of these sources.  Section 4.1: [acquire] hands out a
    handle, the handle is released on every exit path, and
    [markCompromised] flags it.  Each is an event of the trace. *)
Definition pool_event (c : call) (w : world) : world :=
  record c Returned (clock w) w.

Definition timeout_message : string :=
  "Timeout while getting channel info. Client may be banned".

(** [Parser.get_channel_info] *)
Definition get_channel_info (request : GetChannelInfoRequest)
  : M GetChannelInfoResponse := fun w =>
  finally
    (try_except
       (wait_for (_get_channel_info_internal request) (seconds 60))
       (fun e => match e with
                 | AsyncioTimeoutError | TimeoutError _ =>
                     Some (fun w => raise (TimeoutError timeout_message)
                                      (pool_event MarkAsBan w))
                 | _ => None
                 end))
    (pool_event ReleaseClient)
    (pool_event GetClient w).

End Methods.

(** *** Reading a run *)

Definition start (t : Z) : world := {| clock := t; deadline := None; trace := [] |}.

Definition calls (tr : list event) : list call := fst <$> tr.

Definition is_mark (c : call) : bool :=
  match c with MarkAsBan => true | _ => false end.

Definition is_photo (c : call) : bool :=
  match c with DownloadProfilePhoto _ => true | _ => false end.

Definition rate_limited (ev : event) : option Z :=
  match snd ev with
  | Raised (FloodWaitError s _) => Some s
  | _ => None
  end.

End Parser.

(** ** Vocabulary of the statements about the activity window *)

Module Window.
Import Parser.

(** The instant a post was made, a post with no zone being read as UTC. *)
Definition utc_timestamp (p : Message) : Z :=
  match tzinfo (date p) with
  | Some off => wall (date p) - off
  | None => wall (date p)
  end.

Definition in_window (cutoff : Z) (p : Message) : bool :=
  cutoff <=? utc_timestamp p.

(** The posts of the last 24 hours, in the order they were delivered. *)
Definition window (cutoff : Z) (posts : list Message) : list Message :=
  List.filter (in_window cutoff) posts.

(** Non-increasing timestamps. *)
Fixpoint newest_first (posts : list Message) : bool :=
  match posts with
  | p :: rest =>
      match rest with
      | q :: _ => (utc_timestamp q <=? utc_timestamp p) && newest_first rest
      | [] => true
      end
  | [] => true
  end.

(** The stream yields exactly [posts], whatever the latencies. *)
Definition delivers (stream : list (reply Message)) (posts : list Message) : Prop :=
  result <$> stream = Returns <$> posts.

(** A loop with [break] over a list: the final loop state and the number
    of items taken from the list. *)
Fixpoint run_loop {A St} (body : A -> St -> option St) (xs : list A) (s : St)
  : St * nat :=
  match xs with
  | [] => (s, O)
  | x :: rest =>
      match body x s with
      | None => (s, 1%nat)
      | Some s' =>
          match run_loop body rest s' with
          | (s'', n) => (s'', S n)
          end
      end
  end.

(** The new part of the trace of a run started in [w]. *)
Definition new_events (w w' : world) : list event :=
  drop (length (trace w)) (trace w').

Definition pulled (tr : list event) : nat :=
  length (List.filter (fun ev => match fst ev with NextMessage => true | _ => false end) tr).

(** A post made [ago] before [t], with a zone-less date. *)
Definition post_at (t ago : Z) (v : option Z) : Message :=
  {| date := {| wall := t - ago; tzinfo := None |}; message_views := v |}.

(** The example of section 8 of the specification, relative to [t]. *)
Definition example_posts (t : Z) : list Message :=
  [post_at t (hours 1) (Some 10);
   post_at t (hours 2) None;
   post_at t (hours 26) (Some 999)].

(** [p], recording [v] views, is the last post of the window delivered
    with a view count: no post delivered after it is both in the window
    and carries one. *)
Definition last_recorded (cutoff : Z) (posts : list Message)
    (p : Message) (v : Z) : Prop :=
  exists pre suf,
    posts = (pre ++ p :: suf)%list /\
    in_window cutoff p = true /\
    message_views p = Some v /\
    forall q, q ∈ suf -> in_window cutoff q = true -> message_views q = None.

(** [p], recording [v] views, is a most recent post of the window with a
    view count. *)
Definition most_recent_recorded (cutoff : Z) (posts : list Message)
    (p : Message) (v : Z) : Prop :=
  p ∈ posts /\
  in_window cutoff p = true /\
  message_views p = Some v /\
  forall q, q ∈ posts -> in_window cutoff q = true ->
            message_views q <> None -> utc_timestamp q <= utc_timestamp p.

(** A platform whose channel history is [history t] at instant [t], every
    other request being answered at once. *)
Definition platform (history : Z -> list Message) : Telegram :=
  {| local_utcoffset := hours 3;
     get_entity := fun _ _ _ =>
       {| latency := 0;
          result := Returns (Some {| entity_id := 7; title := "Foo" |}) |};
     import_chat_invite := fun _ _ _ => {| latency := 0; result := Returns tt |};
     get_full_channel := fun _ _ _ =>
       {| latency := 0;
          result := Returns {| full_chat_id := 7; about := "about foo";
                               participants_count := 120 |} |};
     iter_messages := fun t _ _ _ =>
       (fun p => {| latency := 0; result := Returns p |}) <$> history t;
     download_profile_photo := fun _ _ _ =>
       {| latency := 0; result := Returns None |} |}.

Definition foo : Channel := {| entity_id := 7; title := "Foo" |}.

(** Two posts of the window, both with a view count. *)
Definition two_posts (t : Z) : list Message :=
  [post_at t (hours 1) (Some 10); post_at t (hours 2) (Some 20)].

(** The invariant of section 3 of the specification, as it is worded:
    whenever the window holds a post with a view count, the scan returns
    the view count of a most recent such post. *)
Definition views_of_most_recent_post : Prop :=
  forall T entity w posts p v,
    deadline w = None ->
    delivers (iter_messages T (clock w) (trace w) entity (now_utc (clock w))) posts ->
    newest_first posts = true ->
    most_recent_recorded (clock w - hours 24) posts p v ->
    exists c, fst (__get_posts T entity w) = Ok (v, c).

End Window.

(** ** Vocabulary of the statements about runs *)

Module Runs.
Import Parser Window.

(** The status of a call and the outcome of the coroutine that made it
    last agree. *)
Definition agrees {A} (s : status) (o : outcome A) : Prop :=
  match s, o with
  | Returned, Ok _ => True
  | Raised e, Raise e' => e = e'
  | Interrupted, Cancelled => True
  | _, _ => False
  end.

Definition failure {A} (o : outcome A) : option exn :=
  match o with
  | Raise e => Some e
  | _ => None
  end.

Definition map_outcome {A B} (f : A -> B) (o : outcome A) : outcome B :=
  match o with
  | Ok a => Ok (f a)
  | Raise e => Raise e
  | Cancelled => Cancelled
  end.

(** The status a call is recorded with when it is answered in time. *)
Definition status_of {A} (a : answer A) : status :=
  match a with
  | Returns _ => Returned
  | Raises e => Raised e
  end.

(** The outcome of a coroutine that ends as the call it awaits. *)
Definition outcome_of {A} (a : answer A) : outcome A :=
  match a with
  | Returns x => Ok x
  | Raises e => Raise e
  end.

(** The lookup reported "not found". *)
Definition not_found (s : status) : bool :=
  match s with
  | Raised (ValueError _) => true
  | _ => false
  end.

(** One polling round per status: a 10-second sleep, then a lookup that
    ended with that status. *)
Definition retries (url : string) (sts : list status) : list event :=
  sts ≫= (fun st => [(Sleep (seconds 10), Returned); (GetEntity url, st)]).

(** Lookups that directly follow a sleep. *)
Fixpoint retry_lookups (tr : list event) : nat :=
  match tr with
  | (Sleep _, _) :: rest =>
      match rest with
      | (GetEntity _, _) :: _ => S (retry_lookups rest)
      | _ => retry_lookups rest
      end
  | _ :: rest => retry_lookups rest
  | [] => O
  end.

(** The join request made at [w] is answered "queued for approval". *)
Definition queued (T : Telegram) (url : string) (w : world) : Prop :=
  exists msg,
    result (import_chat_invite T (clock w) (trace w) (invite_hash_of url)) =
    Raises (InviteRequestSentError msg).

(** The testable property of section 8 of the specification, as it is
    worded: a queued join request is followed by exactly 3 retries. *)
Definition always_three_retries : Prop :=
  forall T url w,
    deadline w = None -> queued T url w ->
    retry_lookups (new_events w (snd (join_private_channel T url w))) = 3%nat.

(** What [get_channel_entity] makes of the outcome of the join protocol
    (lines 26-33 and 38-40). *)
Definition resolved (l : string) (o : outcome (option Channel)) : outcome Channel :=
  match o with
  | Ok (Some c) => Ok c
  | Ok None => Raise (CannotGetChannelInfo l)
  | Raise (InviteHashExpiredError m) => Raise (InvalidChannelLink l m)
  | Raise (FloodWaitError s _) => Raise (FloodWait s)
  | Raise (UserDeactivatedBanError m) => Raise (UserBan m)
  | Raise e => Raise e
  | Cancelled => Cancelled
  end.

(** Every call recorded while [m] runs satisfies [P]. *)
Definition calls_in {A} (P : call -> bool) (m : M A) : Prop :=
  forall w, exists new,
    trace (snd (m w)) = (trace w ++ new)%list /\
    Forall (fun ev => P (fst ev) = true) new.

Definition quiet (ev : event) : Prop := rate_limited ev = None.

(** No call was rate limited, unless it is the last one and the outcome
    is the exception [tr] makes of its [FloodWaitError]. *)
Definition clean {A} (tr : exn -> exn) (o : outcome A) (new : list event) : Prop :=
  Forall quiet new \/
  exists init c s msg,
    new = (init ++ [(c, Raised (FloodWaitError s msg))])%list /\
    Forall quiet init /\
    failure o = Some (tr (FloodWaitError s msg)).

Definition halts_on_flood {A} (tr : exn -> exn) (m : M A) : Prop :=
  forall w, exists new,
    trace (snd (m w)) = (trace w ++ new)%list /\
    clean tr (fst (m w)) new.

(** The translation of lines 30-31 and 34-35. *)
Definition to_flood_wait (e : exn) : exn :=
  match e with
  | FloodWaitError s _ => FloodWait s
  | _ => e
  end.

Definition is_flood (e : exn) : bool :=
  match e with
  | FloodWaitError _ _ => true
  | _ => false
  end.

(** The same world under the deadline [d]. *)
Definition under (d : Z) (w : world) : world :=
  {| clock := clock w; deadline := Some d; trace := trace w |}.

(** [m] keeps time: run without a deadline it is never cancelled and the
    clock does not go back; run under a deadline it does the same as long
    as it ends before the deadline, and is cancelled at the deadline
    otherwise. *)
Definition keeps_time {A} (m : M A) : Prop :=
  forall w d, deadline w = None -> clock w < d ->
    clock w <= clock (snd (m w)) /\
    deadline (snd (m w)) = None /\
    fst (m w) <> Cancelled /\
    (clock (snd (m w)) < d ->
     m (under d w) = (fst (m w), under d (snd (m w)))) /\
    (d <= clock (snd (m w)) ->
     fst (m (under d w)) = Cancelled /\
     clock (snd (m (under d w))) = d /\
     deadline (snd (m (under d w))) = Some d).

(** The four errors the resolution raises by design (lines 29-39). *)
Definition resolution_error (e : exn) : bool :=
  match e with
  | FloodWait _ | UserBan _ | InvalidChannelLink _ _
  | CannotGetChannelInfo _ => true
  | _ => false
  end.

(** Any instance of the timeout class. *)
Definition is_timeout (e : exn) : bool :=
  match e with
  | AsyncioTimeoutError | TimeoutError _ => true
  | _ => false
  end.

(** The response built at lines 126-129 when no logo was obtained. *)
Definition without_logo (ch : ChannelInfo) : GetChannelInfoResponse :=
  {| channel := ch; logo := None |}.

(** The character occurs in the string. *)
Fixpoint occurs (c : ascii) (s : string) : bool :=
  match s with
  | EmptyString => false
  | String a s' => Ascii.eqb a c || occurs c s'
  end.

(** A call made by the orchestration itself, not by the bracket that
    obtains, marks and releases the client. *)
Definition inner (c : call) : bool :=
  match c with
  | GetClient | MarkAsBan | ReleaseClient => false
  | _ => true
  end.

(** The first call [m] makes is [c], wherever it is run. *)
Definition starts_with {A} (c : call) (m : M A) : Prop :=
  forall w, exists st rest,
    trace (snd (m w)) = (trace w ++ (c, st) :: rest)%list.

Definition any_call (c : call) : bool := true.

Definition marks (tr : list event) : nat :=
  length (List.filter (fun ev => is_mark (fst ev)) tr).

End Runs.

(** ** Platforms used as concrete inputs *)

Module Scenarios.
Import Parser Window.

Definition at_once {A} (a : answer A) : reply A :=
  {| latency := 0; result := a |}.

Definition after {A} (d : Z) (a : answer A) : reply A :=
  {| latency := Z.to_N d; result := a |}.

Definition foo_full : ChatFull :=
  {| full_chat_id := 7; about := "about foo"; participants_count := 120 |}.

Definition no_such_entity : exn :=
  ValueError "Cannot find any entity corresponding to the reference".

Definition wait_30 : exn :=
  FloodWaitError 30 "A wait of 30 seconds is required".

Definition request_sent : exn :=
  InviteRequestSentError "You have successfully requested to join this chat".

Definition has_requested (tr : list event) : bool :=
  existsb (fun ev => match fst ev with ImportChatInvite _ => true | _ => false end) tr.

(** A private channel: the reference is not found, and the join request
    is rate limited. *)
Definition limited : Telegram :=
  {| local_utcoffset := 0;
     get_entity := fun _ _ _ => at_once (Raises no_such_entity);
     import_chat_invite := fun _ _ _ => at_once (Raises wait_30);
     get_full_channel := fun _ _ _ => at_once (Returns foo_full);
     iter_messages := fun _ _ _ _ => [];
     download_profile_photo := fun _ _ _ => at_once (Returns None) |}.

(** A public channel whose full profile is rate limited. *)
Definition throttled : Telegram :=
  {| local_utcoffset := 0;
     get_entity := fun _ _ _ => at_once (Returns (Some foo));
     import_chat_invite := fun _ _ _ => at_once (Returns tt);
     get_full_channel := fun _ _ _ => at_once (Raises wait_30);
     iter_messages := fun _ _ _ _ => [];
     download_profile_photo := fun _ _ _ => at_once (Returns None) |}.

(** A public channel whose history is rate limited. *)
Definition throttled_history : Telegram :=
  {| local_utcoffset := 0;
     get_entity := fun _ _ _ => at_once (Returns (Some foo));
     import_chat_invite := fun _ _ _ => at_once (Returns tt);
     get_full_channel := fun _ _ _ => at_once (Returns foo_full);
     iter_messages := fun _ _ _ _ => [at_once (Raises wait_30)];
     download_profile_photo := fun _ _ _ => at_once (Returns None) |}.

(** A private channel whose join request is queued and never approved. *)
Definition pending : Telegram :=
  {| local_utcoffset := 0;
     get_entity := fun _ _ _ => after (seconds 1) (Raises no_such_entity);
     import_chat_invite := fun _ _ _ => after (seconds 1) (Raises request_sent);
     get_full_channel := fun _ _ _ => at_once (Returns foo_full);
     iter_messages := fun _ _ _ _ => [];
     download_profile_photo := fun _ _ _ => at_once (Returns None) |}.

(** A private channel whose join request is queued and approved before
    the first retry. *)
Definition approving : Telegram :=
  {| local_utcoffset := 0;
     get_entity := fun _ tr _ =>
       at_once (if has_requested tr then Returns (Some foo)
                else Raises no_such_entity);
     import_chat_invite := fun _ _ _ => at_once (Raises request_sent);
     get_full_channel := fun _ _ _ => at_once (Returns foo_full);
     iter_messages := fun _ _ _ _ => [];
     download_profile_photo := fun _ _ _ => at_once (Returns None) |}.

(** A public channel whose full profile takes two minutes to arrive. *)
Definition stalled : Telegram :=
  {| local_utcoffset := 0;
     get_entity := fun _ _ _ => after (seconds 1) (Returns (Some foo));
     import_chat_invite := fun _ _ _ => at_once (Returns tt);
     get_full_channel := fun _ _ _ => after (seconds 120) (Returns foo_full);
     iter_messages := fun _ _ _ _ => [];
     download_profile_photo := fun _ _ _ => at_once (Returns None) |}.

(** A public channel whose full profile request raises a timeout of its
    own after one second. *)
Definition timing_out : Telegram :=
  {| local_utcoffset := 0;
     get_entity := fun _ _ _ => at_once (Returns (Some foo));
     import_chat_invite := fun _ _ _ => at_once (Returns tt);
     get_full_channel := fun _ _ _ =>
       after (seconds 1) (Raises (TimeoutError "timed out"));
     iter_messages := fun _ _ _ _ => [];
     download_profile_photo := fun _ _ _ => at_once (Returns None) |}.

(** A public channel whose profile photo cannot be fetched. *)
Definition no_photo : Telegram :=
  {| local_utcoffset := 0;
     get_entity := fun _ _ _ => at_once (Returns (Some foo));
     import_chat_invite := fun _ _ _ => at_once (Returns tt);
     get_full_channel := fun _ _ _ => at_once (Returns foo_full);
     iter_messages := fun t _ _ _ =>
       (fun p => at_once (Returns p)) <$> example_posts t;
     download_profile_photo := fun _ _ _ =>
       at_once (Raises (OtherError "photo unavailable")) |}.

Definition foo_request (logo : bool) : GetChannelInfoRequest :=
  {| channel_link := "https://t.me/foo"; get_logo := logo |}.

Definition invite_request : GetChannelInfoRequest :=
  {| channel_link := "https://t.me/+AbCdEf"; get_logo := false |}.

(** A database holding the row of channel 7 and no statistics row. *)
Definition sample_db : Database.db :=
  {| Database.channels :=
       {[ 7 := {| Database.row_name := "Foo";
                  Database.row_description := "about foo";
                  Database.row_link := "t.me/foo" |} ]};
     Database.statistics := [] |}.

(** A stream out of order: a post of the window, an older post, then a
    post of the window again and a rate limit. *)
Definition shuffled : Telegram :=
  {| local_utcoffset := 0;
     get_entity := fun _ _ _ => at_once (Returns (Some foo));
     import_chat_invite := fun _ _ _ => at_once (Returns tt);
     get_full_channel := fun _ _ _ => at_once (Returns foo_full);
     iter_messages := fun t _ _ _ =>
       [at_once (Returns (post_at t (hours 1) (Some 10)));
        at_once (Returns (post_at t (hours 30) (Some 20)));
        at_once (Returns (post_at t (hours 2) (Some 30)));
        at_once (Raises wait_30)];
     download_profile_photo := fun _ _ _ => at_once (Returns None) |}.

(** Three snapshots of channel 7, stored out of order of time: 30.4 s,
    10.9 s and 20.1 s after the epoch. *)
Definition snapshot (v : Z) : ChannelInfo :=
  {| channel_id := 7; link := "t.me/foo"; name := "Foo";
     description := "about foo"; subscribers := 120; views := v;
     posts_count := 2 |}.

Definition history_db : Database.db :=
  Database.apply_updates Database.empty_db
    [(30400000, snapshot 1); (10900000, snapshot 2); (20100000, snapshot 3)].

Definition history_item (v t : Z) : Database.StatisticsItem :=
  {| Database.item_views := v; Database.item_subscribers := 120;
     Database.item_posts_count := 2; Database.item_time := t |}.

Definition newest_history : Database.Get24hStatisticsResponse :=
  {| Database.sorting := Database.NEWEST;
     Database.data := [history_item 1 30; history_item 3 20; history_item 2 10] |}.

Definition oldest_history : Database.Get24hStatisticsResponse :=
  {| Database.sorting := Database.OLDEST;
     Database.data := [history_item 2 10; history_item 3 20; history_item 1 30] |}.

(** Another channel. *)
Definition bar_snapshot : ChannelInfo :=
  {| channel_id := 8; link := "t.me/bar"; name := "Bar";
     description := "about bar"; subscribers := 5; views := 0;
     posts_count := 0 |}.

End Scenarios.
(** ** Facts about the string built-ins *)

Module PyFacts.
Import Py.

Lemma append_nil_l s : EmptyString ++ s = s.
Proof. reflexivity. Qed.

Lemma append_cons a p s : String a p ++ s = String a (p ++ s).
Proof. reflexivity. Qed.

Lemma strip_prefix_app p s : strip_prefix p (p ++ s) = Some s.
Proof.
  induction p as [|a p IH]; [reflexivity|].
  rewrite append_cons. simpl. rewrite Ascii.eqb_refl. exact IH.
Qed.

Lemma strip_prefix_inv p s r : strip_prefix p s = Some r -> s = p ++ r.
Proof.
  revert s; induction p as [|a p IH]; intros s H; simpl in H.
  - injection H as ->. reflexivity.
  - destruct s as [|b s]; [discriminate|].
    destruct (Ascii.eqb_spec a b) as [->|]; [|discriminate].
    rewrite append_cons. f_equal. auto.
Qed.

Lemma removeprefix_app p s : removeprefix (p ++ s) p = s.
Proof. unfold removeprefix. now rewrite strip_prefix_app. Qed.

Lemma startswith_app p s : startswith (p ++ s) p = true.
Proof. unfold startswith. now rewrite strip_prefix_app. Qed.

Lemma startswith_inv s p : startswith s p = true -> exists r, s = p ++ r.
Proof.
  unfold startswith. destruct (strip_prefix p s) eqn:E; [|discriminate].
  intros _. eexists. eauto using strip_prefix_inv.
Qed.

End PyFacts.

(** ** Facts about the persistence service *)

Module DatabaseFacts.
Import Database.

Lemma newest_None l : newest l = None <-> l = [].
Proof.
  destruct l as [|s rest]; simpl; [tauto|].
  split; [|discriminate].
  destruct (newest rest); [destruct (_ <=? _)|]; discriminate.
Qed.

Lemma newest_is_Some l : l <> [] -> is_Some (newest l).
Proof.
  intros H. destruct (newest l) eqn:E; [eauto|].
  apply newest_None in E. contradiction.
Qed.

Lemma newest_elem l s : newest l = Some s -> s ∈ l.
Proof.
  revert s; induction l as [|a l IH]; intros s; simpl; [discriminate|].
  destruct (newest l) as [s'|].
  - destruct (_ <=? _); intros [= <-]; [left|right; auto].
  - intros [= <-]. left.
Qed.

Lemma newest_greatest l s x :
  newest l = Some s -> x ∈ l -> stat_recorded_at x <= stat_recorded_at s.
Proof.
  revert s; induction l as [|a l IH]; intros s; simpl; [discriminate|].
  intros H Hx. apply elem_of_cons in Hx.
  destruct (newest l) as [s'|] eqn:E.
  - destruct (Z.leb_spec (stat_recorded_at s') (stat_recorded_at a));
      injection H as <-; destruct Hx as [->|Hx]; try lia.
    + specialize (IH s' eq_refl Hx). lia.
    + auto.
  - injection H as <-. destruct Hx as [->|Hx]; [lia|].
    apply newest_None in E. subst l. inversion Hx.
Qed.

Lemma stats_of_update d now ch id :
  stats_of (fst (update_or_create_channel d now ch)) id =
  (stats_of d id ++
    (if decide (channel_id ch = id)
     then [{| stat_channel := channel_id ch;
              stat_subscribers := subscribers ch;
              stat_views_24h := views ch;
              stat_posts_count := posts_count ch;
              stat_recorded_at := now |}]
     else []))%list.
Proof.
  unfold stats_of, update_or_create_channel; simpl.
  rewrite filter_app. f_equal.
Qed.

Lemma stats_of_update_length d now ch id :
  (length (stats_of d id) <= length (stats_of (fst (update_or_create_channel d now ch)) id))%nat.
Proof. rewrite stats_of_update, length_app. lia. Qed.

Lemma channels_update_keeps d now ch id :
  is_Some (channels d !! id) ->
  is_Some (channels (fst (update_or_create_channel d now ch)) !! id).
Proof.
  intros H. unfold update_or_create_channel; simpl.
  destruct (decide (channel_id ch = id)) as [->|Hne].
  - rewrite lookup_insert_eq. eauto.
  - rewrite lookup_insert_ne by done. exact H.
Qed.

Lemma apply_updates_cons d now ch us :
  apply_updates d ((now, ch) :: us) =
  apply_updates (fst (update_or_create_channel d now ch)) us.
Proof. reflexivity. Qed.

(** Once a channel has a row and a statistics row, no run of updates
    takes either away. *)
Lemma apply_updates_keeps us : forall d id,
  is_Some (channels d !! id) -> stats_of d id <> [] ->
  is_Some (channels (apply_updates d us) !! id) /\
  stats_of (apply_updates d us) id <> [].
Proof.
  induction us as [|[now ch] us IH]; intros d id Hc Hs; [split; assumption|].
  rewrite apply_updates_cons. apply IH.
  - now apply channels_update_keeps.
  - pose proof (stats_of_update_length d now ch id) as Hl.
    intros E. rewrite E in Hl. simpl in Hl.
    destruct (stats_of d id); [congruence|simpl in Hl; lia].
Qed.

Lemma get_channel_ok d id :
  is_Some (channels d !! id) -> stats_of d id <> [] ->
  exists r, get_channel d id = Ok r /\ channel_id (channel r) = id.
Proof.
  intros [c Hc] Hs. unfold get_channel. rewrite Hc.
  destruct (newest_is_Some _ Hs) as [s ->].
  eexists; split; reflexivity.
Qed.

Lemma elem_of_channels_with_link d l i c :
  (i, c) ∈ channels_with_link d l <-> channels d !! i = Some c /\ row_link c = l.
Proof.
  unfold channels_with_link.
  rewrite elem_of_map_to_list, map_lookup_filter_Some. simpl. tauto.
Qed.

Lemma channels_with_link_NoDup d l : NoDup (channels_with_link d l).
Proof. apply NoDup_map_to_list. Qed.

Lemma channels_with_link_nil d l :
  (forall i c, channels d !! i = Some c -> row_link c <> l) ->
  channels_with_link d l = [].
Proof.
  intros H. destruct (channels_with_link d l) as [|[i c] rest] eqn:E; [reflexivity|].
  assert (Hin : (i, c) ∈ channels_with_link d l) by (rewrite E; left).
  apply elem_of_channels_with_link in Hin as [Hc Hl].
  exfalso. eapply H; eauto.
Qed.

Lemma channels_with_link_singleton d l i c :
  channels d !! i = Some c -> row_link c = l ->
  (forall j c', channels d !! j = Some c' -> row_link c' = l -> j = i) ->
  channels_with_link d l = [(i, c)].
Proof.
  intros Hc Hl Huniq.
  assert (Hall : forall x, x ∈ channels_with_link d l -> x = (i, c)).
  { intros [j c'] Hx. apply elem_of_channels_with_link in Hx as [Hj Hl'].
    assert (j = i) as -> by eauto. congruence. }
  assert (Hin : (i, c) ∈ channels_with_link d l)
    by (apply elem_of_channels_with_link; auto).
  pose proof (channels_with_link_NoDup d l) as Hnd.
  destruct (channels_with_link d l) as [|x rest]; [inversion Hin|].
  assert (x = (i, c)) as -> by (apply Hall; left).
  destruct rest as [|y rest]; [reflexivity|].
  assert (y = (i, c)) as -> by (apply Hall; right; left).
  apply NoDup_cons in Hnd as [Hni _]. exfalso. apply Hni. left.
Qed.

End DatabaseFacts.

(** ** Facts about the history of a channel *)

Module HistoryFacts.
Import Database DatabaseFacts.

#[export] Instance recorded_earlier_total : Total recorded_earlier.
Proof. intros a b. unfold recorded_earlier. lia. Qed.

#[export] Instance recorded_earlier_trans : Transitive recorded_earlier.
Proof. intros a b c. unfold recorded_earlier. lia. Qed.

#[export] Instance recorded_later_total : Total recorded_later.
Proof. intros a b. unfold recorded_later. lia. Qed.

#[export] Instance recorded_later_trans : Transitive recorded_later.
Proof. intros a b c. unfold recorded_later. lia. Qed.

Lemma whole_seconds_mono a b : a <= b -> whole_seconds a <= whole_seconds b.
Proof. intros H. unfold whole_seconds. apply Z.quot_le_mono; lia. Qed.

Lemma item_time_of s : item_time (item_of s) = whole_seconds (stat_recorded_at s).
Proof. reflexivity. Qed.

Lemma ordered_stats_perm d id s : ordered_stats d id s ≡ₚ stats_of d id.
Proof. destruct s; apply merge_sort_Permutation. Qed.

Lemma ordered_newest_sorted d id :
  StronglySorted recorded_later (ordered_stats d id NEWEST).
Proof. apply StronglySorted_merge_sort; apply _. Qed.

Lemma ordered_oldest_sorted d id :
  StronglySorted recorded_earlier (ordered_stats d id OLDEST).
Proof. apply StronglySorted_merge_sort; apply _. Qed.

Lemma get_24h_statistics_ok d id s r :
  get_24h_statistics d id s = Ok r ->
  is_Some (channels d !! id) /\
  sorting r = s /\
  data r = item_of <$> ordered_stats d id s.
Proof.
  unfold get_24h_statistics. destruct (channels d !! id); [|discriminate].
  intros [= <-]. eauto.
Qed.

Lemma get_24h_statistics_known d id s :
  is_Some (channels d !! id) ->
  get_24h_statistics d id s =
  Ok {| sorting := s; data := item_of <$> ordered_stats d id s |}.
Proof. intros [c Hc]. unfold get_24h_statistics. now rewrite Hc. Qed.

Lemma channels_after_update d now ch id :
  channels (fst (update_or_create_channel d now ch)) !! id =
  if decide (channel_id ch = id)
  then Some {| row_name := name ch; row_description := description ch;
               row_link := link ch |}
  else channels d !! id.
Proof.
  unfold update_or_create_channel; simpl.
  destruct (decide (channel_id ch = id)) as [->|Hne].
  - apply lookup_insert_eq.
  - now apply lookup_insert_ne.
Qed.

Lemma stats_of_update_other d now ch id :
  channel_id ch <> id ->
  stats_of (fst (update_or_create_channel d now ch)) id = stats_of d id.
Proof.
  intros Hne. rewrite stats_of_update, decide_False by exact Hne.
  apply app_nil_r.
Qed.

(** A row recorded after all the others is the newest. *)
Lemma newest_snoc l s :
  (forall x, x ∈ l -> stat_recorded_at x < stat_recorded_at s) ->
  newest (l ++ [s]) = Some s.
Proof.
  induction l as [|a l IH]; intros H; [reflexivity|].
  simpl. rewrite IH by (intros x Hx; apply H; now right).
  assert (Ha : stat_recorded_at a < stat_recorded_at s) by (apply H; left).
  destruct (Z.leb_spec (stat_recorded_at s) (stat_recorded_at a)); [lia|reflexivity].
Qed.

Lemma get_channels_ids_elem d id :
  id ∈ get_channels_ids d <-> is_Some (channels d !! id).
Proof.
  unfold get_channels_ids. rewrite list_elem_of_fmap. split.
  - intros ([i c] & -> & Hin). apply elem_of_map_to_list in Hin. eauto.
  - intros [c Hc]. exists (id, c). split; [reflexivity|].
    now apply elem_of_map_to_list.
Qed.

(** After an update, the channel is found under every reference that
    normalizes to its link, provided no other channel carries the link. *)
Lemma found_by_link_after_update d now ch l :
  (forall j c, channels d !! j = Some c -> j <> channel_id ch ->
               row_link c <> link ch) ->
  strip_scheme l = link ch ->
  exists r,
    get_channel_by_link (fst (update_or_create_channel d now ch)) l = Ok r /\
    channel_id (channel r) = channel_id ch /\
    link (channel r) = link ch.
Proof.
  intros Hfree Hl. set (d' := fst (update_or_create_channel d now ch)).
  unfold get_channel_by_link. rewrite Hl.
  rewrite (channels_with_link_singleton d' (link ch) (channel_id ch)
             {| row_name := name ch; row_description := description ch;
                row_link := link ch |}).
  - destruct (newest_is_Some (stats_of d' (channel_id ch))) as [st ->].
    + subst d'. rewrite stats_of_update, decide_True by reflexivity.
      intros E. now apply app_eq_nil in E as [_ E].
    + eexists. repeat apply conj; reflexivity.
  - subst d'. now rewrite channels_after_update, decide_True by reflexivity.
  - reflexivity.
  - intros j c' Hj Hlink. subst d'. rewrite channels_after_update in Hj.
    destruct (decide (channel_id ch = j)) as [->|Hne]; [reflexivity|].
    exfalso. eapply Hfree; eauto.
Qed.

End HistoryFacts.

(** ** Facts about coroutines *)

Module ParserFacts.
Import Parser Window.

Lemma new_events_app w w' new :
  trace w' = (trace w ++ new)%list -> new_events w w' = new.
Proof. intros H. unfold new_events. rewrite H. now rewrite drop_app_length. Qed.

Lemma record_trace c s t w : trace (record c s t w) = (trace w ++ [(c, s)])%list.
Proof. reflexivity. Qed.

Lemma await_no_deadline {A} c (r : reply A) w :
  deadline w = None ->
  await c r w =
  match result r with
  | Returns a => (Ok a, record c Returned (clock w + Z.of_N (latency r)) w)
  | Raises e => (Raise e, record c (Raised e) (clock w + Z.of_N (latency r)) w)
  end.
Proof. intros H. unfold await. now rewrite H. Qed.

(** *** The scan of [__get_posts] *)

Lemma fmap_cons_inv {A B} (f : A -> B) (l : list A) (y : B) (ys : list B) :
  f <$> l = y :: ys -> exists x l', l = x :: l' /\ f x = y /\ f <$> l' = ys.
Proof.
  destruct l as [|x l']; simpl; [discriminate|].
  intros [= <- <-]. eauto.
Qed.

(** Without a deadline, a stream that only yields runs the loop to its
    end: the loop state is that of the pure loop, and one [NextMessage]
    is recorded for each item taken. *)
Lemma async_for_delivered {A St} (body : A -> St -> option St) (xs : list A) :
  forall (stream : list (reply A)) (s : St) (w : world),
    deadline w = None ->
    result <$> stream = Returns <$> xs ->
    exists w',
      async_for stream body s w = (Ok (fst (run_loop body xs s)), w') /\
      deadline w' = None /\
      clock w <= clock w' /\
      trace w' = (trace w ++
                  replicate (snd (run_loop body xs s)) (NextMessage, Returned))%list.
Proof.
  induction xs as [|x xs IH]; intros stream s w Hd Hs.
  - destruct stream; [|discriminate]. simpl. exists w.
    repeat apply conj; try reflexivity; try lia; try assumption.
    now rewrite app_nil_r.
  - simpl in Hs. apply fmap_cons_inv in Hs as (r & stream' & -> & Hr & Hs).
    simpl async_for. unfold bind. rewrite (await_no_deadline _ _ _ Hd), Hr.
    simpl run_loop. destruct (body x s) as [s'|] eqn:Hb.
    + destruct (IH stream' s' (record NextMessage Returned
                  (clock w + Z.of_N (latency r)) w)) as (w' & Hrun & Hd' & Hc & Ht);
        [exact Hd|exact Hs|].
      exists w'. destruct (run_loop body xs s') as [s'' n] eqn:Hl. simpl in *.
      repeat apply conj; try assumption; [lia|].
      rewrite Ht. now rewrite <- app_assoc.
    + eexists. simpl. repeat apply conj; try reflexivity; [exact Hd|simpl; lia].
Qed.

Lemma scan_post_unfold T t (p : Message) (v c : Z) :
  scan_post T (minus_delta (now_utc t) (hours 24)) p (v, c) =
  if in_window (t - hours 24) p
  then Some (default v (message_views p), c + 1)
  else None.
Proof.
  destruct p as [[wl [off|]] [x|]];
    unfold scan_post, in_window, utc_timestamp, timestamp; simpl;
    unfold UTC; rewrite ?Z.sub_0_r;
    repeat match goal with
    | |- context [?a <? ?b] => destruct (Z.ltb_spec a b)
    | |- context [?a <=? ?b] => destruct (Z.leb_spec a b)
    end; try lia; reflexivity.
Qed.

Lemma newest_first_cons p rest :
  newest_first (p :: rest) = true ->
  newest_first rest = true /\
  forall q, q ∈ rest -> utc_timestamp q <= utc_timestamp p.
Proof.
  revert p; induction rest as [|q rest IH]; intros p H.
  - split; [reflexivity|]. intros q Hq. inversion Hq.
  - change (newest_first (p :: q :: rest))
      with ((utc_timestamp q <=? utc_timestamp p) && newest_first (q :: rest)) in H.
    apply andb_true_iff in H as [Hle Hrest]. apply Z.leb_le in Hle.
    split; [exact Hrest|].
    intros x Hx. apply elem_of_cons in Hx as [->|Hx]; [exact Hle|].
    destruct (IH q Hrest) as [_ Hall]. specialize (Hall x Hx). lia.
Qed.

Lemma window_all_older cutoff p rest :
  in_window cutoff p = false ->
  (forall q, q ∈ rest -> utc_timestamp q <= utc_timestamp p) ->
  window cutoff rest = [].
Proof.
  unfold in_window. intros Hp Hall. apply Z.leb_gt in Hp.
  induction rest as [|q rest IH]; [reflexivity|].
  unfold window in *; simpl.
  assert (Hq : utc_timestamp q <= utc_timestamp p) by (apply Hall; left).
  unfold in_window at 1. destruct (Z.leb_spec cutoff (utc_timestamp q)); [lia|].
  apply IH. intros x Hx. apply Hall. now right.
Qed.

Lemma default_last_cons {A} (d x : A) (l : list A) :
  default d (last (x :: l)) = default x (last l).
Proof. rewrite last_cons. destruct (last l); reflexivity. Qed.

(** The pure scan over posts delivered newest first: the count grows by
    the size of the window, the views become those of the last post of the
    window that records any, and the scan takes one post beyond the
    window when there is one. *)
Lemma run_loop_scan T t : forall posts v c,
  newest_first posts = true ->
  run_loop (scan_post T (minus_delta (now_utc t) (hours 24))) posts (v, c) =
  ((default v (last (omap message_views (window (t - hours 24) posts))),
    c + Z.of_nat (length (window (t - hours 24) posts))),
   Nat.min (S (length (window (t - hours 24) posts))) (length posts)).
Proof.
  induction posts as [|p rest IH]; intros v c Hs.
  - simpl. f_equal. f_equal. lia.
  - apply newest_first_cons in Hs as [Hrest Hall].
    simpl run_loop. rewrite scan_post_unfold.
    unfold window; simpl List.filter.
    destruct (in_window (t - hours 24) p) eqn:Hp.
    + fold (window (t - hours 24) rest).
      rewrite (IH _ _ Hrest). simpl omap. f_equal.
      * f_equal.
        -- destruct (message_views p) as [x|]; simpl;
             [now rewrite default_last_cons|reflexivity].
        -- simpl length. lia.
    + fold (window (t - hours 24) rest).
      rewrite (window_all_older _ _ _ Hp Hall). simpl. f_equal. f_equal. lia.
Qed.

(** [__get_posts] on a stream that yields [posts], newest first. *)
Lemma get_posts_delivered T entity w posts :
  deadline w = None ->
  delivers (iter_messages T (clock w) (trace w) entity (now_utc (clock w))) posts ->
  newest_first posts = true ->
  exists w',
    __get_posts T entity w =
      (Ok (default 0 (last (omap message_views (window (clock w - hours 24) posts))),
           Z.of_nat (length (window (clock w - hours 24) posts))), w') /\
    deadline w' = None /\
    clock w <= clock w' /\
    trace w' =
      (trace w ++
       (IterMessages entity (now_utc (clock w)), Returned) ::
       replicate (Nat.min (S (length (window (clock w - hours 24) posts)))
                          (length posts))
                 (NextMessage, Returned))%list.
Proof.
  intros Hd Hs Hsorted.
  unfold __get_posts, bind, now.
  destruct (async_for_delivered
              (scan_post T (minus_delta (now_utc (clock w)) (hours 24)))
              posts _ (0, 0)
              (record (IterMessages entity (now_utc (clock w))) Returned (clock w) w)
              Hd Hs) as (w' & Hrun & Hd' & Hc & Ht).
  rewrite (run_loop_scan T (clock w) posts 0 0 Hsorted) in Hrun, Ht.
  simpl in Hrun, Ht, Hc. exists w'. rewrite Hrun.
  repeat apply conj; try assumption; try reflexivity.
  rewrite Ht, <- app_assoc. reflexivity.
Qed.

Lemma pulled_replicate n :
  pulled (replicate n (NextMessage, Returned)) = n.
Proof. induction n; simpl; [reflexivity|]. unfold pulled in *. simpl. now f_equal. Qed.

Lemma omap_views_none cutoff suf :
  (forall q, q ∈ suf -> in_window cutoff q = true -> message_views q = None) ->
  omap message_views (window cutoff suf) = [].
Proof.
  induction suf as [|q suf IH]; intros H; [reflexivity|].
  unfold window in *; simpl.
  destruct (in_window cutoff q) eqn:Hq.
  - simpl. rewrite (H q) by (auto; left). apply IH.
    intros x Hx. apply H. now right.
  - apply IH. intros x Hx. apply H. now right.
Qed.

Lemma last_recorded_is_last cutoff posts p v :
  last_recorded cutoff posts p v ->
  last (omap message_views (window cutoff posts)) = Some v.
Proof.
  intros (pre & suf & -> & Hp & Hv & Hsuf).
  unfold window. rewrite List.filter_app. simpl. rewrite Hp.
  rewrite omap_app. simpl. rewrite Hv.
  change (list_omap Message Z message_views (List.filter (in_window cutoff) suf))
    with (omap message_views (window cutoff suf)).
  rewrite (omap_views_none _ _ Hsuf).
  apply last_snoc.
Qed.

Lemma newest_first_app_r pre rest :
  newest_first (pre ++ rest) = true -> newest_first rest = true.
Proof.
  induction pre as [|x pre IH]; [auto|].
  intros H. apply newest_first_cons in H as [H _]. auto.
Qed.

Lemma newest_first_before pre p suf q :
  newest_first (pre ++ p :: suf) = true -> q ∈ pre ->
  utc_timestamp p <= utc_timestamp q.
Proof.
  induction pre as [|x pre IH]; intros H Hq; [inversion Hq|].
  apply newest_first_cons in H as [Hrest Hall].
  apply elem_of_cons in Hq as [->|Hq]; [|auto].
  apply Hall. apply elem_of_app. right. left.
Qed.

Lemma last_recorded_cons cutoff a posts p v :
  last_recorded cutoff posts p v -> last_recorded cutoff (a :: posts) p v.
Proof.
  intros (pre & suf & -> & H). exists (a :: pre), suf. split; [reflexivity|exact H].
Qed.

(** Either no post of the window carries a view count, or one of them is
    the last to do so. *)
Lemma last_recorded_or_none cutoff posts :
  (forall q, q ∈ posts -> in_window cutoff q = true -> message_views q = None) \/
  (exists p v, last_recorded cutoff posts p v).
Proof.
  induction posts as [|a posts [IH|(p & v & IH)]].
  - left. intros q Hq. inversion Hq.
  - destruct (in_window cutoff a) eqn:Ha.
    + destruct (message_views a) as [v|] eqn:Hv.
      * right. exists a, v, [], posts. auto.
      * left. intros q Hq. apply elem_of_cons in Hq as [->|Hq]; auto.
    + left. intros q Hq Hin. apply elem_of_cons in Hq as [->|Hq]; [congruence|auto].
  - right. exists p, v. now apply last_recorded_cons.
Qed.

Lemma last_recorded_oldest cutoff posts p v q :
  newest_first posts = true ->
  last_recorded cutoff posts p v ->
  q ∈ posts -> in_window cutoff q = true -> message_views q <> None ->
  utc_timestamp p <= utc_timestamp q.
Proof.
  intros Hs (pre & suf & -> & Hp & Hv & Hsuf) Hq Hin Hrec.
  apply elem_of_app in Hq as [Hq|Hq].
  - eapply newest_first_before; eauto.
  - apply elem_of_cons in Hq as [->|Hq]; [lia|].
    exfalso. apply Hrec. auto.
Qed.

Lemma example_posts_window t :
  newest_first (example_posts t) = true /\
  window (t - hours 24) (example_posts t) =
    [post_at t (hours 1) (Some 10); post_at t (hours 2) None].
Proof.
  unfold window, example_posts, in_window, post_at, hours, seconds; simpl.
  unfold utc_timestamp; simpl.
  repeat match goal with
         | |- context [?a <=? ?b] => destruct (Z.leb_spec a b)
         end; try lia; split; reflexivity.
Qed.

End ParserFacts.

(** ** Facts about traces *)

Module RunFacts.
Import Parser Window Runs ParserFacts.

(** *** Which calls a coroutine makes *)

Section CallsIn.
Context (P : call -> bool).

Lemma calls_in_ret {A} (a : A) : calls_in P (ret a).
Proof. intros w. exists []. simpl. rewrite app_nil_r. auto. Qed.

Lemma calls_in_raise {A} e : calls_in P (@raise A e).
Proof. intros w. exists []. simpl. rewrite app_nil_r. auto. Qed.

Lemma calls_in_now : calls_in P now.
Proof. intros w. exists []. simpl. rewrite app_nil_r. auto. Qed.

Lemma calls_in_await {A} c (r : reply A) : P c = true -> calls_in P (await c r).
Proof.
  intros Hc w. unfold await.
  destruct (expired _ _); [|destruct (result r)];
    (eexists; split; [apply record_trace|]); repeat constructor; exact Hc.
Qed.

Lemma calls_in_ask {A} c (oracle : Z -> list event -> reply A) :
  P c = true -> calls_in P (ask c oracle).
Proof. intros Hc w. unfold ask. now apply calls_in_await. Qed.

Lemma calls_in_sleep d : P (Sleep d) = true -> calls_in P (sleep d).
Proof. apply calls_in_await. Qed.

Lemma calls_in_bind {A B} (m : M A) (k : A -> M B) :
  calls_in P m -> (forall a, calls_in P (k a)) -> calls_in P (bind m k).
Proof.
  intros Hm Hk w. unfold bind. destruct (Hm w) as (n1 & Ht1 & H1).
  destruct (m w) as [[a|e|] w1]; simpl in *; eauto.
  destruct (Hk a w1) as (n2 & Ht2 & H2).
  exists (n1 ++ n2)%list. split.
  - now rewrite Ht2, Ht1, app_assoc.
  - now apply Forall_app.
Qed.

Lemma calls_in_try {A} (m : M A) (h : exn -> option (M A)) :
  calls_in P m -> (forall e k, h e = Some k -> calls_in P k) ->
  calls_in P (try_except m h).
Proof.
  intros Hm Hh w. unfold try_except. destruct (Hm w) as (n1 & Ht1 & H1).
  destruct (m w) as [[a|e|] w1]; simpl in *; eauto.
  destruct (h e) as [k|] eqn:He; simpl; eauto.
  destruct (Hh e k He w1) as (n2 & Ht2 & H2).
  exists (n1 ++ n2)%list. split.
  - now rewrite Ht2, Ht1, app_assoc.
  - now apply Forall_app.
Qed.

Lemma calls_in_async_for {A St} (body : A -> St -> option St) stream :
  P NextMessage = true -> forall s, calls_in P (async_for stream body s).
Proof.
  intros Hn. induction stream as [|r rest IH]; intros s; simpl.
  - apply calls_in_ret.
  - apply calls_in_bind; [now apply calls_in_await|].
    intros x. destruct (body x s); [apply IH|apply calls_in_ret].
Qed.

Lemma calls_in_wait_for {A} (m : M A) timeout :
  calls_in P m -> calls_in P (wait_for m timeout).
Proof.
  intros Hm w. unfold wait_for.
  destruct (Hm {| clock := clock w; deadline := Some (clock w + timeout);
                  trace := trace w |}) as (n & Ht & H).
  destruct (m _) as [[a|e|] w1]; simpl in *; eauto.
Qed.

End CallsIn.

Section MethodsCallsIn.
Context (T : Telegram) (P : call -> bool).
Context (Hlookup : forall l, P (GetEntity l) = true).
Context (Himport : forall h, P (ImportChatInvite h) = true).
Context (Hsleep : forall d, P (Sleep d) = true).
Context (Hfull : forall c, P (GetFullChannel c) = true).
Context (Hiter : forall c d, P (IterMessages c d) = true).
Context (Hnext : P NextMessage = true).

Lemma calls_in_client_get_entity l : calls_in P (client_get_entity T l).
Proof. apply calls_in_ask, Hlookup. Qed.

Lemma calls_in_poll n url : calls_in P (poll T n url).
Proof.
  induction n as [|n IH]; simpl; [apply calls_in_ret|].
  apply calls_in_bind; [apply calls_in_sleep, Hsleep|]. intros _.
  apply calls_in_bind.
  - apply calls_in_try.
    + apply calls_in_bind; [apply calls_in_client_get_entity|].
      intros; apply calls_in_ret.
    + intros [] k [= <-]; apply calls_in_ret.
  - intros [e|]; [apply calls_in_ret|apply IH].
Qed.

Lemma calls_in_join_private_channel url : calls_in P (join_private_channel T url).
Proof.
  unfold join_private_channel. apply calls_in_bind.
  - apply calls_in_try.
    + apply calls_in_bind; [apply calls_in_ask, Himport|].
      intros; apply calls_in_ret.
    + intros [] k [= <-].
      * apply calls_in_bind; [apply calls_in_client_get_entity|].
        intros; apply calls_in_ret.
      * exact (calls_in_poll 3 url).
  - intros [e|]; [apply calls_in_ret|apply calls_in_client_get_entity].
Qed.

Lemma calls_in_get_channel_entity l : calls_in P (get_channel_entity T l).
Proof.
  unfold get_channel_entity. apply calls_in_bind.
  - apply calls_in_try; [apply calls_in_client_get_entity|].
    intros [] k [= <-]; try apply calls_in_raise.
    apply calls_in_try; [apply calls_in_join_private_channel|].
    intros [] k [= <-]; apply calls_in_raise.
  - intros [c|]; [apply calls_in_ret|apply calls_in_raise].
Qed.

Lemma calls_in_get_posts entity : calls_in P (__get_posts T entity).
Proof.
  intros w. unfold __get_posts, bind, now.
  set (w1 := record _ Returned (clock w) w).
  destruct (calls_in_async_for P
              (scan_post T (minus_delta (now_utc (clock w)) (hours 24)))
              (iter_messages T (clock w) (trace w) entity (now_utc (clock w)))
              Hnext (0, 0) w1) as (n & Ht & H).
  exists ((IterMessages entity (now_utc (clock w)), Returned) :: n).
  split.
  - rewrite Ht. unfold w1. rewrite record_trace, <- app_assoc. reflexivity.
  - constructor; [apply Hiter|exact H].
Qed.

Lemma calls_in_get_channel entity url : calls_in P (get_channel T entity url).
Proof.
  unfold get_channel. apply calls_in_bind; [apply calls_in_ask, Hfull|].
  intros info. apply calls_in_bind; [apply calls_in_get_posts|].
  intros [v c]. apply calls_in_ret.
Qed.

Lemma calls_in_internal request :
  (forall c, P (DownloadProfilePhoto c) = true) ->
  calls_in P (_get_channel_info_internal T request).
Proof.
  intros Hphoto. unfold _get_channel_info_internal.
  apply calls_in_bind; [apply calls_in_get_channel_entity|]. intros entity.
  apply calls_in_bind.
  - destruct (get_logo request); [|apply calls_in_ret].
    apply calls_in_try; [apply calls_in_ask, Hphoto|].
    intros e k [= <-]. apply calls_in_ret.
  - intros lg. apply calls_in_bind; [apply calls_in_get_channel|].
    intros ch. apply calls_in_ret.
Qed.

End MethodsCallsIn.

Section ServiceCallsIn.
Context (T : Telegram) (P : call -> bool) (request : GetChannelInfoRequest).
Context (Hget : P GetClient = true).
Context (Hmark : P MarkAsBan = true).
Context (Hrelease : P ReleaseClient = true).
Context (Hinternal : calls_in P (_get_channel_info_internal T request)).

Lemma calls_in_get_channel_info : calls_in P (get_channel_info T request).
Proof.
  intros w. unfold get_channel_info, finally, try_except.
  destruct (calls_in_wait_for P _ (seconds 60) Hinternal (pool_event GetClient w))
    as (n & Ht & Hn).
  assert (Hbracket : forall last,
            Forall (fun ev => P (fst ev) = true) last ->
            Forall (fun ev => P (fst ev) = true)
                   ((GetClient, Returned) :: n ++ last)).
  { intros last Hlast. constructor; [exact Hget|]. now apply Forall_app. }
  destruct (wait_for _ _ _) as [[a|e|] w2]; simpl in Ht;
    [| destruct e |];
    match goal with
    | |- context [MarkAsBan] =>
        exists ((GetClient, Returned) :: n ++
                [(MarkAsBan, Returned); (ReleaseClient, Returned)])%list
    | _ => exists ((GetClient, Returned) :: n ++ [(ReleaseClient, Returned)])%list
    end;
    simpl; rewrite Ht, <- !app_assoc;
    (split; [reflexivity|apply Hbracket; repeat constructor; assumption]).
Qed.

End ServiceCallsIn.

(** A response of [get_channel_info] is the response of the
    orchestration it ran under the deadline. *)
Lemma get_channel_info_ok T request w resp :
  fst (get_channel_info T request w) = Ok resp ->
  fst (_get_channel_info_internal T request
         (under (clock w + seconds 60) (pool_event GetClient w))) = Ok resp.
Proof.
  unfold get_channel_info, finally, try_except, wait_for.
  change {| clock := clock (pool_event GetClient w);
            deadline := Some (clock (pool_event GetClient w) + seconds 60);
            trace := trace (pool_event GetClient w) |}
    with (under (clock w + seconds 60) (pool_event GetClient w)).
  destruct (_get_channel_info_internal T request _) as [[r|e|] w'];
    simpl; try discriminate; [auto|].
  destruct e; simpl; discriminate.
Qed.

Lemma calls_in_internal_without_logo T request :
  get_logo request = false ->
  calls_in (fun c => negb (is_photo c)) (_get_channel_info_internal T request).
Proof.
  intros Hlogo. unfold _get_channel_info_internal. rewrite Hlogo.
  apply calls_in_bind; [now apply calls_in_get_channel_entity|]. intros entity.
  apply calls_in_bind; [apply calls_in_ret|]. intros lg.
  apply calls_in_bind; [now apply calls_in_get_channel|]. intros ch.
  apply calls_in_ret.
Qed.

Lemma internal_without_logo T request w resp :
  get_logo request = false ->
  fst (_get_channel_info_internal T request w) = Ok resp -> logo resp = None.
Proof.
  intros Hlogo. unfold _get_channel_info_internal, bind. rewrite Hlogo.
  destruct (get_channel_entity T (channel_link request) w) as [[entity|e|] w1];
    try discriminate.
  unfold ret at 1.
  destruct (get_channel T entity (channel_link request) w1) as [[ch|e|] w2];
    try discriminate.
  intros [= <-]. reflexivity.
Qed.

(** *** The stored link *)

Lemma get_channel_link T entity url w ch w' :
  get_channel T entity url w = (Ok ch, w') -> link ch = strip_scheme url.
Proof.
  unfold get_channel, bind, ask.
  destruct (await _ _ w) as [[info|e|] w1]; try discriminate.
  destruct (__get_posts T entity w1) as [[[v c]|e|] w2]; try discriminate.
  intros [= <- _]. reflexivity.
Qed.

(** When the platform returns the full profile and the history stream
    delivers its posts, [get_channel] returns a profile whose link is the
    normalized reference. *)
Lemma get_channel_returns T entity url w info posts :
  deadline w = None ->
  let r := get_full_channel T (clock w) (trace w) entity in
  let w1 := record (GetFullChannel entity) Returned (clock w + Z.of_N (latency r)) w in
  result r = Returns info ->
  delivers (iter_messages T (clock w1) (trace w1) entity (now_utc (clock w1))) posts ->
  exists ch w',
    get_channel T entity url w = (Ok ch, w') /\
    link ch = strip_scheme url /\
    channel_id ch = full_chat_id info.
Proof.
  intros Hd r w1 Hr Hs. unfold get_channel.
  unfold bind at 1. unfold ask. rewrite (await_no_deadline _ _ _ Hd).
  fold r. rewrite Hr. fold w1.
  unfold bind at 1. unfold __get_posts, bind, now.
  destruct (async_for_delivered
              (scan_post T (minus_delta (now_utc (clock w1)) (hours 24)))
              posts _ (0, 0)
              (record (IterMessages entity (now_utc (clock w1))) Returned
                 (clock w1) w1)
              Hd Hs) as (w' & Hrun & _).
  rewrite Hrun. destruct (fst (run_loop _ posts (0, 0))) as [v c].
  eexists. exists w'. repeat apply conj; reflexivity.
Qed.

Lemma internal_link T request w resp :
  fst (_get_channel_info_internal T request w) = Ok resp ->
  link (channel resp) = strip_scheme (channel_link request).
Proof.
  unfold _get_channel_info_internal, bind.
  destruct (get_channel_entity T (channel_link request) w) as [[entity|e|] w1];
    try discriminate.
  destruct (get_logo request).
  - unfold try_except, ask.
    destruct (await _ _ w1) as [[lg|e|] w2]; try discriminate;
      unfold ret at 1;
      destruct (get_channel T entity (channel_link request) w2)
        as [[ch|e'|] w3] eqn:E; try discriminate;
      intros [= <-]; simpl; eapply get_channel_link; exact E.
  - unfold ret at 1.
    destruct (get_channel T entity (channel_link request) w1)
      as [[ch|e'|] w3] eqn:E; try discriminate.
    intros [= <-]; simpl. eapply get_channel_link; exact E.
Qed.

Lemma strip_scheme_cases s :
  s = "https://" ++ strip_scheme s \/
  s = "http://" ++ strip_scheme s \/
  (Py.startswith s "https://" = false /\ Py.startswith s "http://" = false /\
   strip_scheme s = s).
Proof.
  unfold strip_scheme, Py.startswith, Py.removeprefix.
  destruct (Py.strip_prefix "https://" s) as [r|] eqn:E1.
  - left. now apply PyFacts.strip_prefix_inv.
  - destruct (Py.strip_prefix "http://" s) as [r|] eqn:E2.
    + right; left. now apply PyFacts.strip_prefix_inv.
    + right; right. auto.
Qed.

Lemma no_photo_calls (new : list event) :
  Forall (fun ev => negb (is_photo (fst ev)) = true) new ->
  Forall (fun ev => is_photo (fst ev) = false) new.
Proof.
  intros H. eapply Forall_impl; [exact H|].
  intros ev Hev. now apply negb_true_iff in Hev.
Qed.

(** *** Rate limits *)

Lemma quiet_not_flood c s : 
  match s with Raised e => is_flood e = false | _ => True end -> quiet (c, s).
Proof. unfold quiet, rate_limited; simpl. destruct s as [|[]|]; simpl; congruence. Qed.

Lemma clean_nil {A} tr (o : outcome A) : clean tr o [].
Proof. left. constructor. Qed.

Lemma clean_app_quiet {A} tr (o : outcome A) n1 n2 :
  Forall quiet n1 -> clean tr o n2 -> clean tr o (n1 ++ n2).
Proof.
  intros H1 [H2|(init & c & s & msg & -> & Hinit & Ho)].
  - left. now apply Forall_app.
  - right. exists (n1 ++ init)%list, c, s, msg.
    rewrite app_assoc. repeat apply conj; auto. now apply Forall_app.
Qed.

Lemma clean_quiet {A} tr (o : outcome A) new :
  (forall s msg, failure o <> Some (tr (FloodWaitError s msg))) ->
  clean tr o new -> Forall quiet new.
Proof.
  intros Hne [H|(init & c & s & msg & _ & _ & Ho)]; [exact H|].
  exfalso. eapply Hne, Ho.
Qed.

Lemma clean_split {A} tr (o : outcome A) new pre c s msg post :
  clean tr o new ->
  new = (pre ++ (c, Raised (FloodWaitError s msg)) :: post)%list ->
  post = [] /\ failure o = Some (tr (FloodWaitError s msg)).
Proof.
  assert (Hloud : ~ quiet (c, Raised (FloodWaitError s msg))) by discriminate.
  intros [H|(init & c' & s' & msg' & Hnew & Hinit & Ho)] ->.
  - exfalso. apply Hloud. apply Forall_app in H as [_ H].
    now apply Forall_cons in H as [H _].
  - destruct post as [|y post _] using rev_ind.
    + apply app_inj_tail in Hnew as [_ Hev]. injection Hev as -> -> ->. auto.
    + exfalso. apply Hloud.
      change (pre ++ (c, Raised (FloodWaitError s msg)) :: post ++ [y])%list
        with (pre ++ ((c, Raised (FloodWaitError s msg)) :: post) ++ [y])%list in Hnew.
      rewrite app_assoc in Hnew. apply app_inj_tail in Hnew as [<- _].
      apply Forall_app in Hinit as [_ H]. now apply Forall_cons in H as [H _].
Qed.

Lemma halts_ret {A} tr (a : A) : halts_on_flood tr (ret a).
Proof. intros w. exists []. simpl. rewrite app_nil_r. split; [reflexivity|apply clean_nil]. Qed.

Lemma halts_raise {A} tr e : halts_on_flood tr (@raise A e).
Proof. intros w. exists []. simpl. rewrite app_nil_r. split; [reflexivity|apply clean_nil]. Qed.

Lemma halts_await {A} c (r : reply A) : halts_on_flood id (await c r).
Proof.
  intros w. unfold await.
  destruct (expired _ _); [|destruct (result r) as [a|e]];
    (eexists; split; [apply record_trace|]); simpl.
  - left. repeat constructor.
  - left. repeat constructor.
  - destruct (is_flood e) eqn:He.
    + destruct e as [|s msg| | | | | | | | | | |]; try discriminate.
      right. exists [], c, s, msg. auto.
    + left. repeat constructor. apply quiet_not_flood, He.
Qed.

Lemma halts_ask {A} c (oracle : Z -> list event -> reply A) :
  halts_on_flood id (ask c oracle).
Proof. intros w. unfold ask. apply halts_await. Qed.

Lemma halts_bind {A B} tr (m : M A) (k : A -> M B) :
  halts_on_flood tr m -> (forall a, halts_on_flood tr (k a)) ->
  halts_on_flood tr (bind m k).
Proof.
  intros Hm Hk w. unfold bind. destruct (Hm w) as (n1 & Ht1 & H1).
  destruct (m w) as [[a|e|] w1]; simpl in *.
  - destruct (Hk a w1) as (n2 & Ht2 & H2).
    exists (n1 ++ n2)%list. split; [now rewrite Ht2, Ht1, app_assoc|].
    apply clean_app_quiet; [|exact H2].
    eapply clean_quiet; [|exact H1]. discriminate.
  - exists n1. split; [exact Ht1|].
    destruct H1 as [H1|(init & c & s & msg & Hn & Hi & Ho)]; [now left|].
    right. exists init, c, s, msg. auto.
  - exists n1. split; [exact Ht1|]. left.
    eapply clean_quiet; [|exact H1]. discriminate.
Qed.

(** A [try] whose clauses do not catch [FloodWaitError]. *)
Lemma halts_try {A} (m : M A) (h : exn -> option (M A)) :
  halts_on_flood id m ->
  (forall e k, h e = Some k -> is_flood e = false /\ halts_on_flood id k) ->
  halts_on_flood id (try_except m h).
Proof.
  intros Hm Hh w. unfold try_except. destruct (Hm w) as (n1 & Ht1 & H1).
  destruct (m w) as [[a|e|] w1]; simpl in *; eauto.
  destruct (h e) as [k|] eqn:He; simpl; eauto.
  destruct (Hh e k He) as [Hne Hk]. destruct (Hk w1) as (n2 & Ht2 & H2).
  exists (n1 ++ n2)%list. split; [now rewrite Ht2, Ht1, app_assoc|].
  apply clean_app_quiet; [|exact H2].
  eapply clean_quiet; [|exact H1].
  intros s msg [= ->]. discriminate.
Qed.

(** A [try] with the clause [except FloodWaitError as e: raise
    FloodWait(e.seconds)]. *)
Lemma halts_try_translate {A} (m : M A) (h : exn -> option (M A)) :
  halts_on_flood id m ->
  (forall s msg, h (FloodWaitError s msg) = Some (raise (FloodWait s))) ->
  (forall e k, is_flood e = false -> h e = Some k ->
               halts_on_flood to_flood_wait k) ->
  halts_on_flood to_flood_wait (try_except m h).
Proof.
  intros Hm Hflood Hh w. unfold try_except. destruct (Hm w) as (n1 & Ht1 & H1).
  destruct (m w) as [[a|e|] w1]; simpl in *.
  - exists n1. split; [exact Ht1|]. left. eapply clean_quiet; [|exact H1]. discriminate.
  - destruct (is_flood e) eqn:Hfl.
    + destruct e; try discriminate. rewrite Hflood. simpl.
      exists n1. split; [exact Ht1|].
      destruct H1 as [H1|(init & c & s & msg' & Hn & Hi & Ho)]; [now left|].
      right. exists init, c, s, msg'. repeat apply conj; auto.
      simpl in Ho. injection Ho as -> ->. reflexivity.
    + assert (Hq : Forall quiet n1).
      { eapply clean_quiet; [|exact H1]. intros s msg [= ->]. discriminate. }
      destruct (h e) as [k|] eqn:He; simpl.
      * destruct (Hh e k Hfl He w1) as (n2 & Ht2 & H2).
        exists (n1 ++ n2)%list. split; [now rewrite Ht2, Ht1, app_assoc|].
        now apply clean_app_quiet.
      * exists n1. split; [exact Ht1|now left].
  - exists n1. split; [exact Ht1|]. left. eapply clean_quiet; [|exact H1]. discriminate.
Qed.

Section MethodsHalt.
Context (T : Telegram).

Lemma halts_client_get_entity l : halts_on_flood id (client_get_entity T l).
Proof. apply halts_ask. Qed.

Lemma halts_poll n url : halts_on_flood id (poll T n url).
Proof.
  induction n as [|n IH]; simpl; [apply halts_ret|].
  apply halts_bind; [apply halts_await|]. intros _.
  apply halts_bind.
  - apply halts_try.
    + apply halts_bind; [apply halts_client_get_entity|].
      intros; apply halts_ret.
    + intros [] k [= <-]. split; [reflexivity|apply halts_ret].
  - intros [e|]; [apply halts_ret|apply IH].
Qed.

Lemma halts_join_private_channel url :
  halts_on_flood id (join_private_channel T url).
Proof.
  unfold join_private_channel. apply halts_bind.
  - apply halts_try.
    + apply halts_bind; [apply halts_ask|]. intros; apply halts_ret.
    + intros [] k [= <-]; (split; [reflexivity|]).
      * apply halts_bind; [apply halts_client_get_entity|].
        intros; apply halts_ret.
      * exact (halts_poll 3 url).
  - intros [e|]; [apply halts_ret|apply halts_client_get_entity].
Qed.

Lemma halts_get_channel_entity l :
  halts_on_flood to_flood_wait (get_channel_entity T l).
Proof.
  unfold get_channel_entity. apply halts_bind.
  - apply halts_try_translate; [apply halts_client_get_entity|reflexivity|].
    intros [] k Hfl [= <-]; try discriminate Hfl; try apply halts_raise.
    apply halts_try_translate; [apply halts_join_private_channel|reflexivity|].
    intros [] k' Hfl' [= <-]; apply halts_raise.
  - intros [c|]; [apply halts_ret|apply halts_raise].
Qed.

End MethodsHalt.

(** *** The join protocol *)

Section JoinProtocol.
Context (T : Telegram) (url : string).

Lemma poll_S n w :
  deadline w = None ->
  let w1 := record (Sleep (seconds 10)) Returned
              (clock w + Z.of_N (Z.to_N (seconds 10))) w in
  let r := get_entity T (clock w1) (trace w1) url in
  let w2 st := record (GetEntity url) st (clock w1 + Z.of_N (latency r)) w1 in
  poll T (S n) url w =
  match result r with
  | Returns e => (Ok (Some e), w2 Returned)
  | Raises ex =>
      if not_found (Raised ex) then poll T n url (w2 (Raised ex))
      else (Raise ex, w2 (Raised ex))
  end.
Proof.
  intros Hd. cbv zeta. simpl poll.
  unfold bind, try_except, sleep, client_get_entity, ask.
  rewrite (await_no_deadline _ _ _ Hd). cbn [result latency].
  rewrite await_no_deadline by exact Hd.
  match goal with
  | |- context [result ?x] => destruct (result x) as [e|[]]
  end; reflexivity.
Qed.

Lemma retries_cons st sts :
  retries url (st :: sts) =
  ((Sleep (seconds 10), Returned) :: (GetEntity url, st) :: retries url sts)%list.
Proof. reflexivity. Qed.

(** The loop either ends after [n] lookups that all reported "not found",
    or returns or raises at the first lookup that did not. *)
Lemma poll_spec n : forall w,
  deadline w = None ->
  exists sts,
    trace (snd (poll T n url w)) = (trace w ++ retries url sts)%list /\
    deadline (snd (poll T n url w)) = None /\
    ((fst (poll T n url w) = Ok None /\ length sts = n /\
      Forall (fun s => not_found s = true) sts) \/
     (exists nf st,
        sts = (nf ++ [st])%list /\ (length nf < n)%nat /\
        Forall (fun s => not_found s = true) nf /\ not_found st = false /\
        match fst (poll T n url w) with
        | Ok (Some _) => st = Returned
        | Raise e => st = Raised e
        | _ => False
        end)).
Proof.
  induction n as [|n IH]; intros w Hd.
  - exists []. simpl. rewrite app_nil_r.
    repeat apply conj; auto.
  - rewrite (poll_S n w Hd).
    set (w1 := record (Sleep (seconds 10)) Returned _ w).
    set (r := get_entity T (clock w1) (trace w1) url).
    destruct (result r) as [e|ex] eqn:Hr.
    + exists [Returned]. simpl. rewrite <- app_assoc.
      repeat apply conj; try reflexivity; try exact Hd.
      right. exists [], Returned.
      repeat apply conj; auto; simpl; try lia; constructor.
    + destruct (not_found (Raised ex)) eqn:Hnf.
      * destruct (IH (record (GetEntity url) (Raised ex)
                        (clock w1 + Z.of_N (latency r)) w1) Hd)
          as (sts & Ht & Hd' & Hcases).
        exists (Raised ex :: sts). rewrite retries_cons.
        split; [rewrite Ht; simpl; now rewrite <- !app_assoc|].
        split; [exact Hd'|].
        destruct Hcases as [(Ho & Hlen & Hall)|(nf & st & -> & Hlen & Hall & Hst & Ho)].
        -- left. repeat apply conj; auto. simpl. now f_equal.
        -- right. exists (Raised ex :: nf), st.
           repeat apply conj; auto. simpl. lia.
      * exists [Raised ex]. simpl. rewrite <- app_assoc.
        repeat apply conj; try reflexivity; try exact Hd.
        right. exists [], (Raised ex).
        repeat apply conj; auto; simpl; try lia; constructor.
Qed.

Lemma agrees_status_of {A} (a : answer A) : agrees (status_of a) (outcome_of a).
Proof. destruct a; simpl; auto. Qed.

(** A lookup made without a deadline ends as the platform answers. *)
Lemma client_get_entity_run l w :
  deadline w = None ->
  client_get_entity T l w =
  (outcome_of (result (get_entity T (clock w) (trace w) l)),
   record (GetEntity l)
     (status_of (result (get_entity T (clock w) (trace w) l)))
     (clock w + Z.of_N (latency (get_entity T (clock w) (trace w) l))) w).
Proof.
  intros Hd. unfold client_get_entity, ask. rewrite (await_no_deadline _ _ _ Hd).
  destruct (result _); reflexivity.
Qed.

(** The loop either ends after [n] lookups that all reported "not
    found", or ends exactly as the first lookup that did not, made at
    the world [w_last] that follows the sleep before it. *)
Lemma poll_pins n : forall w,
  deadline w = None ->
  exists sts,
    trace (snd (poll T n url w)) = (trace w ++ retries url sts)%list /\
    deadline (snd (poll T n url w)) = None /\
    ((fst (poll T n url w) = Ok None /\ length sts = n /\
      Forall (fun s => not_found s = true) sts) \/
     (exists nf w_last,
        sts = (nf ++ [status_of (result (get_entity T (clock w_last)
                                           (trace w_last) url))])%list /\
        (length nf < n)%nat /\
        Forall (fun s => not_found s = true) nf /\
        not_found (status_of (result (get_entity T (clock w_last)
                                        (trace w_last) url))) = false /\
        deadline w_last = None /\
        trace w_last =
          (trace w ++ retries url nf ++ [(Sleep (seconds 10), Returned)])%list /\
        poll T n url w =
          (map_outcome Some (fst (client_get_entity T url w_last)),
           snd (client_get_entity T url w_last)))).
Proof.
  induction n as [|n IH]; intros w Hd.
  - exists []. simpl. rewrite app_nil_r. repeat apply conj; auto.
  - rewrite (poll_S n w Hd).
    set (w1 := record (Sleep (seconds 10)) Returned _ w).
    set (r := get_entity T (clock w1) (trace w1) url).
    assert (Hdecided : not_found (status_of (result r)) = false ->
              exists nf w_last,
                [status_of (result r)] =
                  (nf ++ [status_of (result (get_entity T (clock w_last)
                                               (trace w_last) url))])%list /\
                (length nf < S n)%nat /\
                Forall (fun s => not_found s = true) nf /\
                not_found (status_of (result (get_entity T (clock w_last)
                                                (trace w_last) url))) = false /\
                deadline w_last = None /\
                trace w_last =
                  (trace w ++ retries url nf ++ [(Sleep (seconds 10), Returned)])%list /\
                (outcome_of (A := option (option Channel))
                   match result r with
                   | Returns e => Returns (Some e)
                   | Raises ex => Raises ex
                   end,
                 record (GetEntity url) (status_of (result r))
                   (clock w1 + Z.of_N (latency r)) w1) =
                (map_outcome Some (fst (client_get_entity T url w_last)),
                 snd (client_get_entity T url w_last))).
    { intros Hnf. exists [], w1. rewrite (client_get_entity_run url w1 Hd). fold r.
      repeat apply conj; auto; try (simpl; lia); try constructor.
      destruct (result r); reflexivity. }
    destruct (result r) as [e|ex] eqn:Hr.
    + exists [Returned]. simpl trace. rewrite <- app_assoc.
      repeat apply conj; try reflexivity; try exact Hd.
      right. exact (Hdecided eq_refl).
    + destruct (not_found (Raised ex)) eqn:Hnf.
      * destruct (IH (record (GetEntity url) (Raised ex)
                        (clock w1 + Z.of_N (latency r)) w1) Hd)
          as (sts & Ht & Hd' & Hcases).
        exists (Raised ex :: sts). rewrite retries_cons.
        split; [rewrite Ht; simpl; now rewrite <- !app_assoc|].
        split; [exact Hd'|].
        destruct Hcases as [(Ho & Hlen & Hall)
                           |(nf & w_last & -> & Hlen & Hall & Hst & Hdl & Htl & Hrun)].
        -- left. repeat apply conj; auto. simpl. now f_equal.
        -- right. exists (Raised ex :: nf), w_last.
           repeat apply conj; auto; [simpl; lia|].
           rewrite Htl. rewrite retries_cons. simpl. now rewrite <- !app_assoc.
      * exists [Raised ex]. simpl trace. rewrite <- app_assoc.
        repeat apply conj; try reflexivity; try exact Hd.
        right. exact (Hdecided Hnf).
Qed.

(** After a queued join request the method polls, and looks the
    reference up once more when the loop ends. *)
Lemma join_queued w msg :
  deadline w = None ->
  result (import_chat_invite T (clock w) (trace w) (invite_hash_of url)) =
    Raises (InviteRequestSentError msg) ->
  let w0 := record (ImportChatInvite (invite_hash_of url))
              (Raised (InviteRequestSentError msg))
              (clock w + Z.of_N (latency (import_chat_invite T (clock w) (trace w)
                                            (invite_hash_of url)))) w in
  join_private_channel T url w =
  match poll T 3 url w0 with
  | (Ok (Some e), w') => (Ok e, w')
  | (Ok None, w') => client_get_entity T url w'
  | (Raise e, w') => (Raise e, w')
  | (Cancelled, w') => (Cancelled, w')
  end.
Proof.
  intros Hd Hq w0. unfold join_private_channel.
  unfold bind at 1. unfold try_except, bind at 1, ask.
  rewrite (await_no_deadline _ _ _ Hd), Hq. fold w0.
  destruct (poll T 3 url w0) as [[[e|]|e|] w']; reflexivity.
Qed.

(** A join request that is accepted at once, or that finds the account
    already taking part, is followed by one lookup, which is the outcome
    of the method. *)
Lemma join_then_lookup w :
  deadline w = None ->
  let r := import_chat_invite T (clock w) (trace w) (invite_hash_of url) in
  (result r = Returns tt \/
   exists m, result r = Raises (UserAlreadyParticipantError m)) ->
  join_private_channel T url w =
  client_get_entity T url
    (record (ImportChatInvite (invite_hash_of url)) (status_of (result r))
       (clock w + Z.of_N (latency r)) w).
Proof.
  intros Hd r Ha. unfold join_private_channel.
  unfold bind at 1. unfold try_except, bind at 1, ask.
  rewrite (await_no_deadline _ _ _ Hd). fold r.
  destruct Ha as [Ha|[m Ha]]; rewrite Ha; cbn [status_of].
  - reflexivity.
  - unfold bind.
    destruct (client_get_entity T url _) as [[e|e|] w']; reflexivity.
Qed.

Lemma client_get_entity_no_deadline l w :
  deadline w = None ->
  exists st,
    trace (snd (client_get_entity T l w)) = (trace w ++ [(GetEntity l, st)])%list /\
    agrees st (fst (client_get_entity T l w)).
Proof.
  intros Hd. unfold client_get_entity, ask. rewrite (await_no_deadline _ _ _ Hd).
  destruct (result _) as [e|ex]; eexists; split; simpl; try reflexivity.
Qed.

(** When the direct lookup reports "not found", the resolution is the
    join protocol followed by the translation of its outcome. *)
Lemma get_channel_entity_via_join w0 m w :
  client_get_entity T url w0 = (Raise (ValueError m), w) ->
  get_channel_entity T url w0 =
  (resolved url (fst (join_private_channel T url w)),
   snd (join_private_channel T url w)).
Proof.
  intros H. unfold get_channel_entity, bind, try_except. rewrite H.
  destruct (join_private_channel T url w) as [[[c|]|[]|] w']; reflexivity.
Qed.

End JoinProtocol.

(** *** Deadlines *)

Lemma keeps_time_ret {A} (a : A) : keeps_time (ret a).
Proof.
  intros w d Hd Hc. simpl.
  repeat apply conj; auto; try lia; try discriminate; intros; lia.
Qed.

Lemma keeps_time_raise {A} e : keeps_time (@raise A e).
Proof.
  intros w d Hd Hc. simpl.
  repeat apply conj; auto; try lia; try discriminate; intros; lia.
Qed.

Lemma keeps_time_await {A} c (r : reply A) : keeps_time (await c r).
Proof.
  intros w d Hd Hc. unfold await, under; simpl. rewrite Hd; simpl.
  pose proof (N2Z.is_nonneg (latency r)) as Hlat.
  destruct (Z.leb_spec d (clock w + Z.of_N (latency r)));
    destruct (result r); simpl; repeat apply conj;
    auto; try lia; try discriminate; intros _; repeat apply conj; auto; lia.
Qed.

Lemma keeps_time_ask {A} c (oracle : Z -> list event -> reply A) :
  keeps_time (ask c oracle).
Proof. intros w d. unfold ask. apply keeps_time_await. Qed.

Lemma keeps_time_bind {A B} (m : M A) (k : A -> M B) :
  keeps_time m -> (forall a, keeps_time (k a)) -> keeps_time (bind m k).
Proof.
  intros Hm Hk w d Hd Hc.
  destruct (Hm w d Hd Hc) as (Hc1 & Hd1 & Hn1 & Hlt1 & Hge1).
  unfold bind. destruct (m w) as [[a|e|] w1]; simpl in *.
  - destruct (Z_lt_le_dec (clock w1) d) as [Hlt|Hge].
    + rewrite (Hlt1 Hlt).
      destruct (Hk a w1 d Hd1 Hlt) as (Hc2 & Hd2 & Hn2 & Hlt2 & Hge2).
      repeat apply conj; auto; lia.
    + destruct (Hk a w1 (clock w1 + 1) Hd1 ltac:(lia)) as (Hc2 & Hd2 & Hn2 & _).
      destruct (Hge1 Hge) as (Ho & Hcd & Hdd).
      destruct (m (under d w)) as [o wd]; simpl in *; subst o.
      repeat apply conj; auto; try lia.
  - repeat apply conj; auto.
    + intros Hlt. now rewrite (Hlt1 Hlt).
    + intros Hge. destruct (Hge1 Hge) as (Ho & Hcd & Hdd).
      destruct (m (under d w)) as [o wd]; simpl in *; subst o. auto.
  - contradiction.
Qed.

Lemma keeps_time_try {A} (m : M A) (h : exn -> option (M A)) :
  keeps_time m -> (forall e k, h e = Some k -> keeps_time k) ->
  keeps_time (try_except m h).
Proof.
  intros Hm Hh w d Hd Hc.
  destruct (Hm w d Hd Hc) as (Hc1 & Hd1 & Hn1 & Hlt1 & Hge1).
  unfold try_except. destruct (m w) as [[a|e|] w1]; simpl in *.
  - repeat apply conj; auto.
    + intros Hlt. now rewrite (Hlt1 Hlt).
    + intros Hge. destruct (Hge1 Hge) as (Ho & Hcd & Hdd).
      destruct (m (under d w)) as [o wd]; simpl in *; subst o. auto.
  - destruct (h e) as [k|] eqn:He.
    + destruct (Z_lt_le_dec (clock w1) d) as [Hlt|Hge].
      * rewrite (Hlt1 Hlt), He.
        destruct (Hh e k He w1 d Hd1 Hlt) as (Hc2 & Hd2 & Hn2 & Hlt2 & Hge2).
        repeat apply conj; auto; lia.
      * destruct (Hh e k He w1 (clock w1 + 1) Hd1 ltac:(lia))
          as (Hc2 & Hd2 & Hn2 & _).
        destruct (Hge1 Hge) as (Ho & Hcd & Hdd).
        destruct (m (under d w)) as [o wd]; simpl in *; subst o.
        repeat apply conj; auto; try lia.
    + simpl. repeat apply conj; auto.
      * intros Hlt. now rewrite (Hlt1 Hlt), He.
      * intros Hge. destruct (Hge1 Hge) as (Ho & Hcd & Hdd).
        destruct (m (under d w)) as [o wd]; simpl in *; subst o. auto.
  - contradiction.
Qed.

Lemma keeps_time_async_for {A St} (body : A -> St -> option St) stream :
  forall s, keeps_time (async_for stream body s).
Proof.
  induction stream as [|r rest IH]; intros s; simpl.
  - apply keeps_time_ret.
  - apply keeps_time_bind; [apply keeps_time_await|].
    intros x. destruct (body x s); [apply IH|apply keeps_time_ret].
Qed.

Section MethodsKeepTime.
Context (T : Telegram).

Lemma keeps_time_client_get_entity l : keeps_time (client_get_entity T l).
Proof. apply keeps_time_ask. Qed.

Lemma keeps_time_poll n url : keeps_time (poll T n url).
Proof.
  induction n as [|n IH]; simpl; [apply keeps_time_ret|].
  apply keeps_time_bind; [apply keeps_time_await|]. intros _.
  apply keeps_time_bind.
  - apply keeps_time_try.
    + apply keeps_time_bind; [apply keeps_time_client_get_entity|].
      intros; apply keeps_time_ret.
    + intros [] k [= <-]; apply keeps_time_ret.
  - intros [e|]; [apply keeps_time_ret|apply IH].
Qed.

Lemma keeps_time_join_private_channel url :
  keeps_time (join_private_channel T url).
Proof.
  unfold join_private_channel. apply keeps_time_bind.
  - apply keeps_time_try.
    + apply keeps_time_bind; [apply keeps_time_ask|].
      intros; apply keeps_time_ret.
    + intros [] k [= <-].
      * apply keeps_time_bind; [apply keeps_time_client_get_entity|].
        intros; apply keeps_time_ret.
      * exact (keeps_time_poll 3 url).
  - intros [e|]; [apply keeps_time_ret|apply keeps_time_client_get_entity].
Qed.

Lemma keeps_time_get_channel_entity l : keeps_time (get_channel_entity T l).
Proof.
  unfold get_channel_entity. apply keeps_time_bind.
  - apply keeps_time_try; [apply keeps_time_client_get_entity|].
    intros [] k [= <-]; try apply keeps_time_raise.
    apply keeps_time_try; [apply keeps_time_join_private_channel|].
    intros [] k [= <-]; apply keeps_time_raise.
  - intros [c|]; [apply keeps_time_ret|apply keeps_time_raise].
Qed.

Lemma keeps_time_get_posts entity : keeps_time (__get_posts T entity).
Proof.
  intros w d Hd Hc. unfold __get_posts, bind, now. simpl.
  apply (keeps_time_async_for
           (scan_post T (minus_delta (now_utc (clock w)) (hours 24)))
           (iter_messages T (clock w) (trace w) entity (now_utc (clock w)))
           (0, 0)
           (record (IterMessages entity (now_utc (clock w))) Returned (clock w) w)
           d Hd Hc).
Qed.

Lemma keeps_time_get_channel entity url : keeps_time (get_channel T entity url).
Proof.
  unfold get_channel. apply keeps_time_bind; [apply keeps_time_ask|].
  intros info. apply keeps_time_bind; [apply keeps_time_get_posts|].
  intros [v c]. apply keeps_time_ret.
Qed.

Lemma keeps_time_internal request :
  keeps_time (_get_channel_info_internal T request).
Proof.
  unfold _get_channel_info_internal.
  apply keeps_time_bind; [apply keeps_time_get_channel_entity|]. intros entity.
  apply keeps_time_bind.
  - destruct (get_logo request); [|apply keeps_time_ret].
    apply keeps_time_try; [apply keeps_time_ask|].
    intros e k [= <-]. apply keeps_time_ret.
  - intros lg. apply keeps_time_bind; [apply keeps_time_get_channel|].
    intros ch. apply keeps_time_ret.
Qed.

End MethodsKeepTime.

Lemma marks_app tr1 tr2 : marks (tr1 ++ tr2) = (marks tr1 + marks tr2)%nat.
Proof. unfold marks. now rewrite List.filter_app, length_app. Qed.

Lemma marks_none tr :
  Forall (fun ev => negb (is_mark (fst ev)) = true) tr -> marks tr = O.
Proof.
  unfold marks. induction 1 as [|ev tr Hev _ IH]; [reflexivity|].
  simpl. apply negb_true_iff in Hev. now rewrite Hev.
Qed.

End RunFacts.

(** ** Facts about references and about the service as a whole *)

Module ServiceFacts.
Import Parser Window Runs ParserFacts RunFacts.

(** *** The invite hash *)

Lemma split_not_nil sep s : Py.split sep s <> [].
Proof.
  destruct s as [|c s]; simpl; [discriminate|].
  destruct (Ascii.eqb c sep); [discriminate|].
  destruct (Py.split sep s); discriminate.
Qed.

Lemma split_without_separator sep s :
  occurs sep s = false -> Py.split sep s = [s].
Proof.
  induction s as [|c s IH]; simpl; [reflexivity|].
  intros H. apply orb_false_iff in H as [Hc Hs].
  rewrite Hc, (IH Hs). reflexivity.
Qed.

(** What follows the last separator is split on its own. *)
Lemma split_app_separator sep a b :
  exists p pre,
    Py.split sep (a ++ String sep b) = (p :: pre ++ Py.split sep b)%list.
Proof.
  induction a as [|c a (p & pre & IH)].
  - exists EmptyString, []. simpl. now rewrite Ascii.eqb_refl.
  - rewrite PyFacts.append_cons. simpl Py.split. rewrite IH.
    destruct (Ascii.eqb c sep).
    + now exists EmptyString, (p :: pre).
    + now exists (String c p), pre.
Qed.

Lemma last_app_not_nil (pre l : list string) d :
  l <> [] -> List.last (pre ++ l) d = List.last l d.
Proof.
  intros Hl. induction pre as [|p pre IH]; [reflexivity|].
  simpl. destruct (pre ++ l)%list eqn:E; [|exact IH].
  apply app_eq_nil in E as [_ E]. contradiction.
Qed.

Lemma last_segment base h :
  occurs "/" h = false ->
  Py.last_item (Py.split "/" (base ++ String "/" h)) = h.
Proof.
  intros Hh. destruct (split_app_separator "/" base h) as (p & pre & ->).
  unfold Py.last_item.
  change (p :: pre ++ Py.split "/" h)%list
    with ((p :: pre) ++ Py.split "/" h)%list.
  rewrite last_app_not_nil by apply split_not_nil.
  now rewrite (split_without_separator _ _ Hh).
Qed.

(** *** The first call of a coroutine *)

Lemma starts_with_ask {A} c (oracle : Z -> list event -> reply A) :
  starts_with c (ask c oracle).
Proof.
  intros w. unfold ask, await.
  destruct (expired _ _); [|destruct (result _)];
    eexists _, []; apply record_trace.
Qed.

Lemma starts_with_bind {A B} c (m : M A) (k : A -> M B) :
  starts_with c m -> (forall a, calls_in any_call (k a)) ->
  starts_with c (bind m k).
Proof.
  intros Hm Hk w. unfold bind. destruct (Hm w) as (st & rest & Ht).
  destruct (m w) as [[a|e|] w1]; simpl in *; eauto.
  destruct (Hk a w1) as (n & Ht' & _).
  exists st, (rest ++ n)%list. rewrite Ht', Ht, <- app_assoc. reflexivity.
Qed.

Lemma starts_with_try {A} c (m : M A) (h : exn -> option (M A)) :
  starts_with c m -> (forall e k, h e = Some k -> calls_in any_call k) ->
  starts_with c (try_except m h).
Proof.
  intros Hm Hh w. unfold try_except. destruct (Hm w) as (st & rest & Ht).
  destruct (m w) as [[a|e|] w1]; simpl in *; eauto.
  destruct (h e) as [k|] eqn:He; simpl; eauto.
  destruct (Hh e k He w1) as (n & Ht' & _).
  exists st, (rest ++ n)%list. rewrite Ht', Ht, <- app_assoc. reflexivity.
Qed.

Lemma join_starts_with_the_invite T url :
  starts_with (ImportChatInvite (invite_hash_of url)) (join_private_channel T url).
Proof.
  unfold join_private_channel. apply starts_with_bind.
  - apply starts_with_try.
    + apply starts_with_bind; [apply starts_with_ask|].
      intros; apply calls_in_ret.
    + intros [] k [= <-].
      * apply calls_in_bind; [now apply calls_in_client_get_entity|].
        intros; apply calls_in_ret.
      * exact (calls_in_poll T any_call (fun _ => eq_refl) (fun _ => eq_refl) 3 url).
  - intros [e|]; [apply calls_in_ret|now apply calls_in_client_get_entity].
Qed.

(** *** The time polling takes *)

Lemma poll_duration T url n : forall w,
  deadline w = None ->
  exists sts,
    trace (snd (poll T n url w)) = (trace w ++ retries url sts)%list /\
    clock w + seconds 10 * Z.of_nat (length sts) <= clock (snd (poll T n url w)) /\
    deadline (snd (poll T n url w)) = None.
Proof.
  induction n as [|n IH]; intros w Hd.
  - exists []. simpl. rewrite app_nil_r. repeat apply conj; auto.
    unfold seconds; simpl; lia.
  - rewrite (poll_S T url n w Hd).
    set (w1 := record (Sleep (seconds 10)) Returned _ w).
    set (r := get_entity T (clock w1) (trace w1) url).
    assert (Hw1 : clock w1 = clock w + seconds 10) by reflexivity.
    unfold seconds in Hw1.
    pose proof (N2Z.is_nonneg (latency r)) as Hlat.
    destruct (result r) as [e|ex].
    + exists [Returned]. simpl trace. rewrite <- app_assoc.
      repeat apply conj; try reflexivity; try exact Hd.
      change (clock (snd (Ok (Some e),
                          record (GetEntity url) Returned
                            (clock w1 + Z.of_N (latency r)) w1)))
        with (clock w1 + Z.of_N (latency r)).
      change (Z.of_nat (length [Returned])) with 1.
      unfold seconds in *. lia.
    + destruct (not_found (Raised ex)).
      * destruct (IH (record (GetEntity url) (Raised ex)
                        (clock w1 + Z.of_N (latency r)) w1) Hd)
          as (sts & Ht & Hc & Hd').
        exists (Raised ex :: sts). rewrite retries_cons.
        split; [rewrite Ht; simpl; now rewrite <- !app_assoc|].
        split; [|exact Hd'].
        assert (Hc' : clock w1 + Z.of_N (latency r) +
                      seconds 10 * Z.of_nat (length sts) <=
                      clock (snd (poll T n url
                                    (record (GetEntity url) (Raised ex)
                                       (clock w1 + Z.of_N (latency r)) w1))))
          by exact Hc.
        change (length (Raised ex :: sts)) with (S (length sts)).
        rewrite Nat2Z.inj_succ. unfold seconds in *. lia.
      * exists [Raised ex]. simpl trace. rewrite <- app_assoc.
        repeat apply conj; try reflexivity; try exact Hd.
        change (clock (snd (Raise ex : outcome (option (option Channel)),
                            record (GetEntity url) (Raised ex)
                              (clock w1 + Z.of_N (latency r)) w1)))
          with (clock w1 + Z.of_N (latency r)).
        change (Z.of_nat (length [Raised ex])) with 1.
        unfold seconds in *. lia.
Qed.

Lemma retry_lookups_retries url sts tail :
  retry_lookups (retries url sts ++ tail) =
  (length sts + retry_lookups tail)%nat.
Proof.
  induction sts as [|st sts IH]; [reflexivity|].
  rewrite retries_cons. simpl. now rewrite IH.
Qed.

(** *** The scan on any stream *)

(** As long as the stream yields posts of the window, the loop goes on
    with the views and the count updated. *)
Lemma async_for_scan T t (run : list Message) :
  forall (s1 rest : list (reply Message)) (v c : Z) (w : world),
    deadline w = None ->
    delivers s1 run ->
    Forall (fun p => in_window (t - hours 24) p = true) run ->
    exists w',
      async_for (s1 ++ rest) (scan_post T (minus_delta (now_utc t) (hours 24)))
        (v, c) w =
      async_for rest (scan_post T (minus_delta (now_utc t) (hours 24)))
        (default v (last (omap message_views run)), c + Z.of_nat (length run)) w' /\
      deadline w' = None /\
      trace w' = (trace w ++ replicate (length run) (NextMessage, Returned))%list.
Proof.
  induction run as [|p run IH]; intros s1 rest v c w Hd Hs Hin.
  - destruct s1; [|discriminate]. exists w. simpl.
    rewrite Z.add_0_r, app_nil_r. auto.
  - apply fmap_cons_inv in Hs as (r & s1' & -> & Hr & Hs).
    apply Forall_cons in Hin as [Hp Hin].
    simpl async_for. unfold bind at 1. rewrite (await_no_deadline _ _ _ Hd), Hr.
    rewrite scan_post_unfold, Hp.
    destruct (IH s1' rest (default v (message_views p)) (c + 1)
                (record NextMessage Returned (clock w + Z.of_N (latency r)) w)
                Hd Hs Hin) as (w' & Hrun & Hd' & Ht).
    exists w'. rewrite Hrun. repeat apply conj; [|exact Hd'|].
    + f_equal. f_equal.
      * simpl omap. destruct (message_views p) as [x|]; simpl;
          [now rewrite default_last_cons|reflexivity].
      * simpl length. lia.
    + rewrite Ht, record_trace, <- app_assoc. reflexivity.
Qed.

Lemma pulled_app tr1 tr2 : pulled (tr1 ++ tr2) = (pulled tr1 + pulled tr2)%nat.
Proof. unfold pulled. now rewrite List.filter_app, length_app. Qed.

(** *** The bracket around the orchestration *)

Lemma get_channel_info_shape T request w :
  exists body,
    trace (snd (wait_for (_get_channel_info_internal T request) (seconds 60)
                  (pool_event GetClient w))) =
      (trace w ++ (GetClient, Returned) :: body)%list /\
    Forall (fun ev => inner (fst ev) = true) body /\
    deadline (snd (wait_for (_get_channel_info_internal T request) (seconds 60)
                     (pool_event GetClient w))) = deadline w /\
    get_channel_info T request w =
      match fst (wait_for (_get_channel_info_internal T request) (seconds 60)
                   (pool_event GetClient w)) with
      | Raise e =>
          if is_timeout e then
            (Raise (TimeoutError timeout_message),
             pool_event ReleaseClient
               (pool_event MarkAsBan
                  (snd (wait_for (_get_channel_info_internal T request)
                          (seconds 60) (pool_event GetClient w)))))
          else
            (Raise e,
             pool_event ReleaseClient
               (snd (wait_for (_get_channel_info_internal T request)
                       (seconds 60) (pool_event GetClient w))))
      | o =>
          (o, pool_event ReleaseClient
                (snd (wait_for (_get_channel_info_internal T request) (seconds 60)
                        (pool_event GetClient w))))
      end.
Proof.
  assert (Hinner : calls_in inner (_get_channel_info_internal T request))
    by (apply calls_in_internal; intros; reflexivity).
  destruct (calls_in_wait_for inner _ (seconds 60) Hinner (pool_event GetClient w))
    as (body & Ht & Hbody).
  exists body. repeat apply conj.
  - rewrite Ht. simpl. now rewrite <- app_assoc.
  - exact Hbody.
  - unfold wait_for. destruct (_get_channel_info_internal T request _) as [[a|e|] w'];
      reflexivity.
  - unfold get_channel_info, finally, try_except.
    destruct (wait_for _ _ _) as [[a|e|] w']; [reflexivity| |reflexivity].
    destruct e; reflexivity.
Qed.

Lemma marks_inner body :
  Forall (fun ev => inner (fst ev) = true) body -> marks body = O.
Proof.
  intros H. apply marks_none. eapply Forall_impl; [exact H|].
  intros [c st]; simpl. now destruct c.
Qed.

Lemma wait_for_raise {A} (m : M A) timeout w e :
  fst (m (under (clock w + timeout) w)) = Raise e ->
  fst (wait_for m timeout w) = Raise e.
Proof.
  unfold wait_for.
  change {| clock := clock w; deadline := Some (clock w + timeout);
            trace := trace w |} with (under (clock w + timeout) w).
  destruct (m _) as [[a|e'|] w']; simpl; congruence.
Qed.

Lemma is_timeout_message e :
  is_timeout e = false -> e <> TimeoutError timeout_message.
Proof. intros H ->. discriminate. Qed.

End ServiceFacts.

(** ** What the specification states about the persistence service *)

Section Persistence.
Import Database DatabaseFacts Scenarios.

(** C9. The lookups tell the two failures apart.  [get_channel] answers
    [ChannelDoesNotExistError] for an id with no channel row and
    [StatsDoesNotExistError] for an id whose channel row has no statistics
    row; [get_channel_by_link] does the same for the normalized link, an
    unknown link being one that no row carries.  The two errors differ
    from each other, and a successful result differs from both; a channel
    with a statistics row is answered successfully. *)
Theorem lookup_failures_are_distinguished (d : db) (id : Z) (l : string) :
  (channels d !! id = None ->
   get_channel d id = Err (ChannelDoesNotExistError (KId id))) /\
  (is_Some (channels d !! id) -> stats_of d id = [] ->
   get_channel d id = Err (StatsDoesNotExistError (KId id))) /\
  (is_Some (channels d !! id) -> stats_of d id <> [] ->
   exists r, get_channel d id = Ok r) /\
  ((forall i c, channels d !! i = Some c -> row_link c <> strip_scheme l) ->
   get_channel_by_link d l =
   Err (ChannelDoesNotExistError (KLink (strip_scheme l)))) /\
  (forall i c,
     channels d !! i = Some c -> row_link c = strip_scheme l ->
     (forall j c', channels d !! j = Some c' ->
                   row_link c' = strip_scheme l -> j = i) ->
     stats_of d i = [] ->
     get_channel_by_link d l =
     Err (StatsDoesNotExistError (KLink (strip_scheme l)))) /\
  (forall k k', ChannelDoesNotExistError k <> StatsDoesNotExistError k') /\
  (forall (r : GetChannelResponse) e, Ok r <> Err e).
Proof.
  repeat apply conj.
  - intros H. unfold get_channel. now rewrite H.
  - intros [c Hc] Hs. unfold get_channel. now rewrite Hc, Hs.
  - intros Hc Hs. destruct (get_channel_ok d id Hc Hs) as (r & Hr & _). eauto.
  - intros H. unfold get_channel_by_link.
    now rewrite (channels_with_link_nil _ _ H).
  - intros i c Hc Hl Huniq Hs. unfold get_channel_by_link.
    rewrite (channels_with_link_singleton _ _ _ _ Hc Hl Huniq).
    now rewrite Hs.
  - discriminate.
  - discriminate.
Qed.

Lemma lookup_failures_are_distinguished_witness :
  get_channel sample_db 8 = Err (ChannelDoesNotExistError (KId 8)) /\
  get_channel sample_db 7 = Err (StatsDoesNotExistError (KId 7)) /\
  get_channel_by_link sample_db "https://t.me/bar" =
    Err (ChannelDoesNotExistError (KLink "t.me/bar")) /\
  get_channel_by_link sample_db "https://t.me/foo" =
    Err (StatsDoesNotExistError (KLink "t.me/foo")).
Proof.
  pose proof (lookup_failures_are_distinguished sample_db 8 "https://t.me/bar")
    as (H1 & _ & _ & H4 & _).
  pose proof (lookup_failures_are_distinguished sample_db 7 "https://t.me/foo")
    as (_ & H2 & _ & _ & H5 & _).
  repeat apply conj.
  - apply H1. reflexivity.
  - apply H2; [eexists|]; reflexivity.
  - apply H4. intros i c Hc. simpl in Hc.
    apply lookup_singleton_Some in Hc as [_ <-]. discriminate.
  - apply (H5 7 {| row_name := "Foo"; row_description := "about foo";
                   row_link := "t.me/foo" |}); try reflexivity.
    intros j c' Hc _. simpl in Hc. now apply lookup_singleton_Some in Hc as [<- _].
Defined.

(** C10. [update_or_create_channel] appends one statistics row whether the
    channel row was created or only updated, and reports which; from then
    on, through any further updates, [get_channel] for that id succeeds, so
    it raises neither [StatsDoesNotExistError] nor
    [ChannelDoesNotExistError]. *)
Theorem update_always_appends_statistics
    (d : db) (now : Z) (ch : ChannelInfo) (later : list (Z * ChannelInfo)) :
  let d' := fst (update_or_create_channel d now ch) in
  statistics d' =
    (statistics d ++
       [{| stat_channel := channel_id ch;
           stat_subscribers := subscribers ch;
           stat_views_24h := views ch;
           stat_posts_count := posts_count ch;
           stat_recorded_at := now |}])%list /\
  length (stats_of d' (channel_id ch)) = S (length (stats_of d (channel_id ch))) /\
  record_created (snd (update_or_create_channel d now ch)) =
    bool_decide (channels d !! channel_id ch = None) /\
  (exists r, get_channel (apply_updates d' later) (channel_id ch) = Ok r) /\
  (forall k, get_channel (apply_updates d' later) (channel_id ch) <>
             Err (StatsDoesNotExistError k)).
Proof.
  intros d'.
  assert (Hlen : length (stats_of d' (channel_id ch)) =
                 S (length (stats_of d (channel_id ch)))).
  { subst d'. rewrite stats_of_update, decide_True by reflexivity.
    rewrite length_app. simpl. lia. }
  assert (Hok : exists r, get_channel (apply_updates d' later) (channel_id ch) = Ok r).
  { destruct (apply_updates_keeps later d' (channel_id ch)) as [Hc Hs].
    - subst d'. unfold update_or_create_channel; simpl.
      rewrite lookup_insert_eq. eauto.
    - intros E. rewrite E in Hlen. discriminate.
    - destruct (get_channel_ok _ _ Hc Hs) as (r & Hr & _). eauto. }
  repeat apply conj; try assumption; try reflexivity.
  intros k E. destruct Hok as [r Hr]. congruence.
Qed.

End Persistence.

(** ** What the specification states about the activity window *)

Section ActivityWindow.
Import Parser Window ParserFacts.

(** C1. On a stream delivered newest first, the scan of [__get_posts]
    returns as post count the number of posts made at or after
    now - 24h, a post with no zone being read as UTC, and as views the
    view count of the last post of that window to carry one (0 when none
    does); it takes at most one post beyond the window from the stream,
    the first that is older than the cutoff.  On the posts
    (-1h, 10), (-2h, none), (-26h, 999) it returns 2 posts and 10 views. *)
Theorem aggregate_scans_the_window (T : Telegram) (entity : Channel) (w : world) :
  deadline w = None ->
  (forall posts,
     delivers (iter_messages T (clock w) (trace w) entity (now_utc (clock w))) posts ->
     newest_first posts = true ->
     let inside := window (clock w - hours 24) posts in
     fst (__get_posts T entity w) =
       Ok (default 0 (last (omap message_views inside)),
           Z.of_nat (length inside)) /\
     pulled (new_events w (snd (__get_posts T entity w))) =
       Nat.min (S (length inside)) (length posts)) /\
  (delivers (iter_messages T (clock w) (trace w) entity (now_utc (clock w)))
            (example_posts (clock w)) ->
   fst (__get_posts T entity w) = Ok (10, 2)).
Proof.
  intros Hd. split.
  - intros posts Hs Hsorted inside.
    destruct (get_posts_delivered T entity w posts Hd Hs Hsorted)
      as (w' & Hrun & _ & _ & Ht).
    rewrite Hrun. split; [reflexivity|]. simpl.
    rewrite (new_events_app _ _ _ Ht).
    unfold pulled; simpl. apply pulled_replicate.
  - intros Hs. destruct (example_posts_window (clock w)) as [Hsorted Hwin].
    destruct (get_posts_delivered T entity w _ Hd Hs Hsorted) as (w' & Hrun & _).
    rewrite Hrun, Hwin. reflexivity.
Qed.

Lemma aggregate_scans_the_window_witness :
  fst (__get_posts (platform example_posts) foo (start 1700000000000000)) =
  Ok (10, 2).
Proof.
  apply (aggregate_scans_the_window (platform example_posts) foo
           (start 1700000000000000) eq_refl).
  reflexivity.
Defined.

(** C2, as worded, fails: of two posts of the window that both carry a
    view count, the scan returns the count of the older one. *)
Lemma most_recent_views_are_overwritten :
  fst (__get_posts (platform two_posts) foo (start 0)) = Ok (20, 2) /\
  most_recent_recorded (0 - hours 24) (two_posts 0)
    (post_at 0 (hours 1) (Some 10)) 10 /\
  ~ views_of_most_recent_post.
Proof.
  assert (Hrecent : most_recent_recorded (0 - hours 24) (two_posts 0)
                      (post_at 0 (hours 1) (Some 10)) 10).
  { repeat apply conj; try reflexivity; [left|].
    intros q Hq _ _. unfold two_posts in Hq.
    repeat (apply elem_of_cons in Hq as [->|Hq]); [discriminate..|inversion Hq]. }
  split; [reflexivity|]. split; [exact Hrecent|].
  intros H.
  destruct (H (platform two_posts) foo (start 0) (two_posts 0)
              (post_at 0 (hours 1) (Some 10)) 10 eq_refl eq_refl eq_refl Hrecent)
    as [c Hc].
  vm_compute in Hc. discriminate.
Qed.

(** C2, amended. On a stream delivered newest first whose window holds a
    post with a view count, the views returned are those of the last
    post of the window delivered with a view count, which is an oldest
    such post. *)
Theorem views_are_those_of_the_oldest_recorded_post
    (T : Telegram) (entity : Channel) (w : world) (posts : list Message) :
  deadline w = None ->
  delivers (iter_messages T (clock w) (trace w) entity (now_utc (clock w))) posts ->
  newest_first posts = true ->
  (exists q, q ∈ posts /\ in_window (clock w - hours 24) q = true /\
             message_views q <> None) ->
  exists p v c,
    last_recorded (clock w - hours 24) posts p v /\
    fst (__get_posts T entity w) = Ok (v, c) /\
    forall q, q ∈ posts -> in_window (clock w - hours 24) q = true ->
              message_views q <> None -> utc_timestamp p <= utc_timestamp q.
Proof.
  intros Hd Hs Hsorted (q & Hq & Hin & Hrec).
  destruct (last_recorded_or_none (clock w - hours 24) posts)
    as [Hnone|(p & v & Hlast)]; [exfalso; auto|].
  destruct (get_posts_delivered T entity w posts Hd Hs Hsorted) as (w' & Hrun & _).
  exists p, v, (Z.of_nat (length (window (clock w - hours 24) posts))).
  repeat apply conj.
  - exact Hlast.
  - rewrite Hrun. simpl. now rewrite (last_recorded_is_last _ _ _ _ Hlast).
  - intros x. now apply (last_recorded_oldest _ _ _ v).
Qed.

Lemma views_are_those_of_the_oldest_recorded_post_witness :
  exists p v c,
    last_recorded (0 - hours 24) (two_posts 0) p v /\
    fst (__get_posts (platform two_posts) foo (start 0)) = Ok (v, c) /\
    forall q, q ∈ two_posts 0 -> in_window (0 - hours 24) q = true ->
              message_views q <> None -> utc_timestamp p <= utc_timestamp q.
Proof.
  apply (views_are_those_of_the_oldest_recorded_post
           (platform two_posts) foo (start 0) (two_posts 0) eq_refl eq_refl eq_refl).
  exists (post_at 0 (hours 1) (Some 10)).
  repeat apply conj; [left|reflexivity|discriminate].
Defined.

End ActivityWindow.

(** ** What the specification states about links and resolution *)

Section Resolution.
Import Parser Window Runs Scenarios PyFacts ParserFacts RunFacts.

(** C7. The normalization strips one leading [https://] or [http://] and
    nothing more, and leaves any other string as it is; the parser stores
    the normalized reference as the link of the profile it builds, and the
    database compares the normalized request with the stored links: a
    channel it finds carries the normalized link, and an unknown link is
    reported normalized.  [https://t.me/foo], [http://t.me/foo] and
    [t.me/foo] all become [t.me/foo].  The parser does return such a
    profile whenever the platform returns the full profile and delivers
    the history.  The answer of the database depends on the request
    through its normalization only; it is "does not exist" exactly for a
    normalized link no row carries, and the one row that carries the
    normalized link, when it has a statistics row, is found. *)
Theorem links_are_normalized_before_storage_and_comparison :
  (forall s, strip_scheme ("https://" ++ s) = s) /\
  (forall s, strip_scheme ("http://" ++ s) = s) /\
  (forall s,
     s = "https://" ++ strip_scheme s \/
     s = "http://" ++ strip_scheme s \/
     (Py.startswith s "https://" = false /\ Py.startswith s "http://" = false /\
      strip_scheme s = s)) /\
  (strip_scheme "https://t.me/foo" = "t.me/foo" /\
   strip_scheme "http://t.me/foo" = "t.me/foo" /\
   strip_scheme "t.me/foo" = "t.me/foo") /\
  (forall T entity url w ch w',
     get_channel T entity url w = (Ok ch, w') -> link ch = strip_scheme url) /\
  (forall T request w resp,
     fst (get_channel_info T request w) = Ok resp ->
     link (channel resp) = strip_scheme (channel_link request)) /\
  (forall d l r,
     Database.get_channel_by_link d l = Database.Ok r ->
     link (Database.channel r) = strip_scheme l) /\
  (forall d l k,
     Database.get_channel_by_link d l =
       Database.Err (Database.ChannelDoesNotExistError k) ->
     k = Database.KLink (strip_scheme l)) /\
  (forall T entity url w info posts,
     deadline w = None ->
     result (get_full_channel T (clock w) (trace w) entity) = Returns info ->
     delivers
       (iter_messages T
          (clock w + Z.of_N (latency (get_full_channel T (clock w) (trace w) entity)))
          (trace w ++ [(GetFullChannel entity, Returned)])%list entity
          (now_utc
             (clock w +
              Z.of_N (latency (get_full_channel T (clock w) (trace w) entity)))))
       posts ->
     exists ch w',
       get_channel T entity url w = (Ok ch, w') /\ link ch = strip_scheme url) /\
  (forall d l l',
     strip_scheme l = strip_scheme l' ->
     Database.get_channel_by_link d l = Database.get_channel_by_link d l') /\
  (forall d l,
     (forall i c, Database.channels d !! i = Some c ->
                  Database.row_link c <> strip_scheme l) <->
     Database.get_channel_by_link d l =
       Database.Err (Database.ChannelDoesNotExistError
                       (Database.KLink (strip_scheme l)))) /\
  (forall d l i c,
     Database.channels d !! i = Some c ->
     Database.row_link c = strip_scheme l ->
     (forall j c', Database.channels d !! j = Some c' ->
                   Database.row_link c' = strip_scheme l -> j = i) ->
     Database.stats_of d i <> [] ->
     exists r,
       Database.get_channel_by_link d l = Database.Ok r /\
       channel_id (Database.channel r) = i /\
       link (Database.channel r) = strip_scheme l).
Proof.
  split; [reflexivity|]. split; [reflexivity|].
  split; [apply strip_scheme_cases|].
  split; [repeat split|].
  split; [apply get_channel_link|].
  split.
  { intros T request w resp H. apply get_channel_info_ok in H.
    eapply internal_link; exact H. }
  split.
  { intros d l r. unfold Database.get_channel_by_link.
    destruct (Database.channels_with_link d (strip_scheme l))
      as [|[id c] [|? ?]] eqn:E; try discriminate.
    destruct (Database.newest _); try discriminate.
    intros [= <-]. simpl.
    assert (Hin : (id, c) ∈ Database.channels_with_link d (strip_scheme l))
      by (rewrite E; left).
    now apply DatabaseFacts.elem_of_channels_with_link in Hin as [_ Hl]. }
  split.
  { intros d l k. unfold Database.get_channel_by_link.
    destruct (Database.channels_with_link d (strip_scheme l))
      as [|[id c] [|? ?]]; try discriminate.
    + now intros [= <-].
    + destruct (Database.newest _); discriminate. }
  split.
  { intros T entity url w info posts Hd Hr Hs.
    destruct (get_channel_returns T entity url w info posts Hd Hr Hs)
      as (ch & w' & Hrun & Hl & _).
    exists ch, w'. split; assumption. }
  split.
  { intros d l l' H. unfold Database.get_channel_by_link. now rewrite H. }
  split.
  { intros d l. unfold Database.get_channel_by_link. split.
    - intros H. now rewrite (DatabaseFacts.channels_with_link_nil d _ H).
    - destruct (Database.channels_with_link d (strip_scheme l))
        as [|[id c] [|? ?]] eqn:E; try discriminate.
      + intros _ i c Hc Hl.
        assert (Hin : (i, c) ∈ Database.channels_with_link d (strip_scheme l))
          by (apply DatabaseFacts.elem_of_channels_with_link; auto).
        rewrite E in Hin. inversion Hin.
      + destruct (Database.newest _); discriminate. }
  intros d l i c Hc Hl Huniq Hs. unfold Database.get_channel_by_link.
  rewrite (DatabaseFacts.channels_with_link_singleton d _ i c Hc Hl Huniq).
  destruct (DatabaseFacts.newest_is_Some _ Hs) as [s ->].
  eexists. split; [reflexivity|]. split; [reflexivity|exact Hl].
Qed.

Lemma links_are_normalized_before_storage_and_comparison_witness :
  (exists r,
     Database.get_channel_by_link history_db "https://t.me/foo" = Database.Ok r /\
     Database.get_channel_by_link history_db "http://t.me/foo" = Database.Ok r /\
     Database.get_channel_by_link history_db "t.me/foo" = Database.Ok r /\
     channel_id (Database.channel r) = 7 /\
     link (Database.channel r) = "t.me/foo") /\
  Database.get_channel_by_link history_db "https://t.me/bar" =
    Database.Err (Database.ChannelDoesNotExistError (Database.KLink "t.me/bar")) /\
  (exists ch w',
     get_channel no_photo foo "https://t.me/foo" (start 0) = (Ok ch, w') /\
     link ch = "t.me/foo").
Proof.
  destruct links_are_normalized_before_storage_and_comparison
    as (_ & _ & _ & _ & _ & _ & _ & _ & Hparser & Hsame & Hunknown & Hfound).
  assert (Hrows : Database.channels history_db =
                  {[ 7 := {| Database.row_name := "Foo";
                             Database.row_description := "about foo";
                             Database.row_link := "t.me/foo" |} ]})
    by reflexivity.
  split; [|split].
  - destruct (Hfound history_db "https://t.me/foo" 7
                {| Database.row_name := "Foo";
                   Database.row_description := "about foo";
                   Database.row_link := "t.me/foo" |})
      as (r & Hr & Hid & Hl).
    + reflexivity.
    + reflexivity.
    + intros j c' Hj _. rewrite Hrows in Hj.
      now apply lookup_singleton_Some in Hj as [<- _].
    + discriminate.
    + exists r. split; [exact Hr|].
      split; [rewrite <- Hr; apply Hsame; reflexivity|].
      split; [rewrite <- Hr; apply Hsame; reflexivity|].
      split; [exact Hid|exact Hl].
  - apply (Hunknown history_db "https://t.me/bar").
    intros i c Hc. rewrite Hrows in Hc.
    apply lookup_singleton_Some in Hc as [_ <-]. discriminate.
  - apply (Hparser no_photo foo "https://t.me/foo" (start 0) foo_full
             (example_posts 0)).
    + reflexivity.
    + reflexivity.
    + reflexivity.
Defined.

(** C6. When a call made during resolution, the direct lookup or any step
    of the join protocol, is rate limited, it is the last call of the
    resolution, and the resolution ends with [FloodWait] carrying the
    number of seconds of the [FloodWaitError]. *)
Theorem rate_limit_aborts_resolution
    (T : Telegram) (l : string) (w : world)
    (pre post : list event) (c : call) (s : Z) (msg : string) :
  new_events w (snd (get_channel_entity T l w)) =
    (pre ++ (c, Raised (FloodWaitError s msg)) :: post)%list ->
  post = [] /\ fst (get_channel_entity T l w) = Raise (FloodWait s).
Proof.
  intros Hnew.
  destruct (halts_get_channel_entity T l w) as (new & Ht & Hclean).
  rewrite (new_events_app _ _ _ Ht) in Hnew.
  destruct (clean_split _ _ _ _ _ _ _ _ Hclean Hnew) as [Hpost Hfail].
  split; [exact Hpost|].
  destruct (fst (get_channel_entity T l w)); simpl in Hfail; congruence.
Qed.

Lemma rate_limit_aborts_resolution_witness :
  new_events (start 0)
    (snd (get_channel_entity limited "https://t.me/+AbCdEf" (start 0))) =
    [(GetEntity "https://t.me/+AbCdEf", Raised no_such_entity);
     (ImportChatInvite "AbCdEf", Raised wait_30)] /\
  fst (get_channel_entity limited "https://t.me/+AbCdEf" (start 0)) =
    Raise (FloodWait 30).
Proof.
  split; [reflexivity|].
  apply (rate_limit_aborts_resolution limited "https://t.me/+AbCdEf" (start 0)
           [(GetEntity "https://t.me/+AbCdEf", Raised no_such_entity)] []
           (ImportChatInvite "AbCdEf") 30 "A wait of 30 seconds is required").
  reflexivity.
Defined.

(** C5, as worded, fails: when the first retry finds the channel, the
    method returns it after that single retry. *)
Lemma a_successful_retry_ends_the_polling :
  queued approving "https://t.me/+AbCdEf" (start 0) /\
  calls (new_events (start 0)
           (snd (join_private_channel approving "https://t.me/+AbCdEf" (start 0)))) =
    [ImportChatInvite "AbCdEf"; Sleep (seconds 10);
     GetEntity "https://t.me/+AbCdEf"] /\
  fst (join_private_channel approving "https://t.me/+AbCdEf" (start 0)) =
    Ok (Some foo) /\
  ~ always_three_retries.
Proof.
  assert (Hq : queued approving "https://t.me/+AbCdEf" (start 0))
    by (eexists; reflexivity).
  repeat apply conj; try reflexivity; [exact Hq|].
  intros H.
  specialize (H approving "https://t.me/+AbCdEf" (start 0) eq_refl Hq).
  vm_compute in H. discriminate.
Qed.

(** C5, amended. After a join request answered "queued for approval",
    the method makes at most 3 retry lookups, each after a 10-second
    sleep, and stops at the first that does not report "not found",
    returning what it returned or raising what it raised; when all 3
    report "not found" it makes one more lookup, without sleeping, whose
    result or exception is its own.  In both cases the method ends
    exactly as that deciding lookup, made at the world [w_last]: with
    the entity the platform returned there, or the exception it raised.
    A resolution that reached the join protocol ends with the
    translation of that outcome, and a failure of the join protocol is a
    failure of the resolution. *)
Theorem queued_join_polls_up_to_three_times
    (T : Telegram) (url : string) (w : world) :
  deadline w = None -> queued T url w ->
  let run := join_private_channel T url w in
  (exists msg notfound st w_last,
     Forall (fun s => not_found s = true) notfound /\
     agrees st (fst run) /\
     deadline w_last = None /\
     st = status_of (result (get_entity T (clock w_last) (trace w_last) url)) /\
     run = client_get_entity T url w_last /\
     fst run = outcome_of (result (get_entity T (clock w_last) (trace w_last) url)) /\
     ((length notfound < 3)%nat /\ not_found st = false /\
      new_events w w_last =
        ((ImportChatInvite (invite_hash_of url),
          Raised (InviteRequestSentError msg)) ::
         retries url notfound ++ [(Sleep (seconds 10), Returned)])%list /\
      new_events w (snd run) =
        ((ImportChatInvite (invite_hash_of url),
          Raised (InviteRequestSentError msg)) ::
         retries url (notfound ++ [st]))%list
      \/
      length notfound = 3%nat /\
      new_events w w_last =
        ((ImportChatInvite (invite_hash_of url),
          Raised (InviteRequestSentError msg)) ::
         retries url notfound)%list /\
      new_events w (snd run) =
        ((ImportChatInvite (invite_hash_of url),
          Raised (InviteRequestSentError msg)) ::
         retries url notfound ++ [(GetEntity url, st)])%list)) /\
  (forall w0 m,
     client_get_entity T url w0 = (Raise (ValueError m), w) ->
     get_channel_entity T url w0 = (resolved url (fst run), snd run)) /\
  (forall e, fst run = Raise e -> exists e', resolved url (fst run) = Raise e').
Proof.
  intros Hd [msg Hq] run. repeat apply conj.
  - exists msg. subst run. rewrite (join_queued T url w msg Hd Hq).
    set (w0 := record _ _ _ w).
    assert (Hw0 : forall w' new,
              trace w' = (trace w0 ++ new)%list ->
              new_events w w' =
                ((ImportChatInvite (invite_hash_of url),
                  Raised (InviteRequestSentError msg)) :: new)%list).
    { intros w' new H. apply new_events_app. rewrite H. unfold w0.
      rewrite record_trace, <- app_assoc. reflexivity. }
    destruct (poll_pins T url 3 w0 Hd) as (sts & Ht & Hd' & Hcases).
    destruct Hcases as [(Ho & Hlen & Hall)
                       |(nf & w_last & -> & Hlen & Hall & Hst & Hdl & Htl & Hrun)].
    + destruct (poll T 3 url w0) as [o w']. cbn [fst snd] in Ht, Hd', Ho. subst o.
      cbv iota beta.
      exists sts, (status_of (result (get_entity T (clock w') (trace w') url))), w'.
      rewrite (client_get_entity_run T url w' Hd'). cbn [fst snd].
      split; [exact Hall|]. split; [apply agrees_status_of|].
      split; [exact Hd'|]. split; [reflexivity|]. split; [reflexivity|].
      split; [reflexivity|].
      right. split; [exact Hlen|]. split; [exact (Hw0 _ _ Ht)|].
      apply Hw0. rewrite record_trace, Ht, <- app_assoc. reflexivity.
    + rewrite Hrun in Ht |- *. cbn [fst snd] in Ht.
      exists nf, (status_of (result (get_entity T (clock w_last) (trace w_last) url))),
        w_last.
      assert (Hsame :
                match
                  (map_outcome Some (fst (client_get_entity T url w_last)),
                   snd (client_get_entity T url w_last))
                with
                | (Ok (Some e), w') => (Ok e, w')
                | (Ok None, w') => client_get_entity T url w'
                | (Raise e, w') => (Raise e, w')
                | (Cancelled, w') => (Cancelled, w')
                end = client_get_entity T url w_last).
      { destruct (client_get_entity T url w_last) as [[e|e|] w2]; reflexivity. }
      rewrite Hsame.
      split; [exact Hall|].
      split; [rewrite (client_get_entity_run T url w_last Hdl);
              apply agrees_status_of|].
      split; [exact Hdl|]. split; [reflexivity|]. split; [reflexivity|].
      split; [now rewrite (client_get_entity_run T url w_last Hdl)|].
      left. split; [exact Hlen|]. split; [exact Hst|].
      split; [apply Hw0; exact Htl|]. apply Hw0. exact Ht.
  - intros w0 m H. now apply (get_channel_entity_via_join T url w0 m).
  - intros e ->. destruct e; simpl; eauto.
Qed.

Lemma queued_join_polls_up_to_three_times_witness :
  new_events (start 0)
    (snd (join_private_channel pending "https://t.me/+AbCdEf" (start 0))) =
    [(ImportChatInvite "AbCdEf", Raised request_sent);
     (Sleep (seconds 10), Returned);
     (GetEntity "https://t.me/+AbCdEf", Raised no_such_entity);
     (Sleep (seconds 10), Returned);
     (GetEntity "https://t.me/+AbCdEf", Raised no_such_entity);
     (Sleep (seconds 10), Returned);
     (GetEntity "https://t.me/+AbCdEf", Raised no_such_entity);
     (GetEntity "https://t.me/+AbCdEf", Raised no_such_entity)] /\
  exists e',
    resolved "https://t.me/+AbCdEf"
      (fst (join_private_channel pending "https://t.me/+AbCdEf" (start 0))) =
    Raise e'.
Proof.
  split; [reflexivity|].
  destruct (queued_join_polls_up_to_three_times pending "https://t.me/+AbCdEf"
              (start 0) eq_refl (ex_intro _ _ eq_refl)) as (_ & _ & H).
  apply (H no_such_entity). reflexivity.
Defined.

End Resolution.

(** ** What the specification states about the service *)

Section Service.
Import Parser Window Runs Scenarios ParserFacts RunFacts.

(** C8. Without [get_logo], neither [_get_channel_info_internal] nor
    [get_channel_info] ever asks for the profile photo, and a response
    they return has no logo.  With [get_logo], when the photo request
    raises, the orchestration goes on to [get_channel] as if nothing had
    happened: its outcome is that of [get_channel], a profile being
    returned with no logo. *)
Theorem image_fetch_is_best_effort
    (T : Telegram) (request : GetChannelInfoRequest) (w : world) :
  (get_logo request = false ->
   (Forall (fun ev => is_photo (fst ev) = false)
           (new_events w (snd (_get_channel_info_internal T request w))) /\
    forall resp,
      fst (_get_channel_info_internal T request w) = Ok resp -> logo resp = None) /\
   (Forall (fun ev => is_photo (fst ev) = false)
           (new_events w (snd (get_channel_info T request w))) /\
    forall resp,
      fst (get_channel_info T request w) = Ok resp -> logo resp = None)) /\
  (get_logo request = true ->
   forall entity w1 e w2,
     get_channel_entity T (channel_link request) w = (Ok entity, w1) ->
     ask (DownloadProfilePhoto entity)
         (fun t tr => download_profile_photo T t tr entity) w1 = (Raise e, w2) ->
     _get_channel_info_internal T request w =
       (map_outcome without_logo
          (fst (get_channel T entity (channel_link request) w2)),
        snd (get_channel T entity (channel_link request) w2))).
Proof.
  split.
  - intros Hlogo.
    pose proof (calls_in_internal_without_logo T request Hlogo) as Hinternal.
    repeat apply conj.
    + destruct (Hinternal w) as (new & Ht & Hall).
      rewrite (new_events_app _ _ _ Ht). now apply no_photo_calls.
    + intros resp. now apply internal_without_logo.
    + destruct (calls_in_get_channel_info T (fun c => negb (is_photo c)) request
                  eq_refl eq_refl eq_refl Hinternal w) as (new & Ht & Hall).
      rewrite (new_events_app _ _ _ Ht). now apply no_photo_calls.
    + intros resp Hresp. apply get_channel_info_ok in Hresp.
      exact (internal_without_logo T request _ resp Hlogo Hresp).
  - intros Hlogo entity w1 e w2 Hent Hphoto.
    unfold _get_channel_info_internal, bind. rewrite Hlogo, Hent.
    unfold try_except. rewrite Hphoto. unfold ret at 1.
    destruct (get_channel T entity (channel_link request) w2) as [[ch|e'|] w3];
      reflexivity.
Qed.

Lemma image_fetch_is_best_effort_witness :
  fst (_get_channel_info_internal no_photo (foo_request true) (start 0)) =
    Ok {| channel := {| channel_id := 7; link := "t.me/foo"; name := "Foo";
                        description := "about foo"; subscribers := 120;
                        views := 10; posts_count := 2 |};
          logo := None |} /\
  Forall (fun ev => is_photo (fst ev) = false)
    (new_events (start 0)
       (snd (_get_channel_info_internal no_photo (foo_request false) (start 0)))).
Proof.
  split.
  - rewrite (proj2 (image_fetch_is_best_effort no_photo (foo_request true) (start 0))
               eq_refl foo _ (OtherError "photo unavailable") _ eq_refl eq_refl).
    reflexivity.
  - apply (proj1 (image_fetch_is_best_effort no_photo (foo_request false) (start 0))
             eq_refl).
Defined.

(** C3: raw Telethon exceptions reach the caller of [get_channel_info].
    A [FloodWaitError] raised by the full-profile request or by the
    iteration over the posts, and the [ValueError] of the last lookup of
    the join protocol, leave the service as they are; none is of the
    taxonomy.  Whatever the platform, [get_channel] passes on the
    exception of the full-profile request unchanged. *)
Theorem remote_errors_reach_the_caller :
  fst (get_channel_info throttled (foo_request false) (start 0)) = Raise wait_30 /\
  fst (get_channel_info throttled_history (foo_request false) (start 0)) =
    Raise wait_30 /\
  fst (get_channel_info pending invite_request (start 0)) = Raise no_such_entity /\
  in_taxonomy wait_30 = false /\
  remote_library_error wait_30 = true /\
  in_taxonomy no_such_entity = false /\
  (forall T entity url w e,
     deadline w = None ->
     result (get_full_channel T (clock w) (trace w) entity) = Raises e ->
     fst (get_channel T entity url w) = Raise e).
Proof.
  repeat apply conj; try reflexivity.
  intros T entity url w e Hd He. unfold get_channel, bind, ask.
  now rewrite (await_no_deadline _ _ _ Hd), He.
Qed.

(** C4. When the orchestration of [_get_channel_info_internal], left to
    itself, would take more than 60 seconds from the moment the client
    was obtained, [get_channel_info] marks the client as banned exactly
    once and raises [TimeoutError] with its own message: not the
    [asyncio.TimeoutError] of [wait_for], and none of the errors that
    report what the platform answered. *)
Theorem deadline_expiry_marks_the_session_once
    (T : Telegram) (request : GetChannelInfoRequest) (w : world) :
  deadline w = None ->
  clock w + seconds 60 <
    clock (snd (_get_channel_info_internal T request (pool_event GetClient w))) ->
  fst (get_channel_info T request w) = Raise (TimeoutError timeout_message) /\
  marks (new_events w (snd (get_channel_info T request w))) = 1%nat /\
  (exists body,
     new_events w (snd (get_channel_info T request w)) =
       ((GetClient, Returned) :: body ++
        [(MarkAsBan, Returned); (ReleaseClient, Returned)])%list /\
     marks body = O) /\
  TimeoutError timeout_message <> AsyncioTimeoutError /\
  remote_library_error (TimeoutError timeout_message) = false /\
  (forall s l m,
     TimeoutError timeout_message ∉
       [FloodWait s; UserBan m; InvalidChannelLink l m; CannotGetChannelInfo l]).
Proof.
  intros Hd Hlong.
  set (w1 := pool_event GetClient w) in *.
  set (d := clock w1 + seconds 60).
  assert (Hd1 : deadline w1 = None) by exact Hd.
  assert (Hc1 : clock w1 < d) by (unfold d, seconds; lia).
  destruct (keeps_time_internal T request w1 d Hd1 Hc1) as (_ & _ & _ & _ & Hgt).
  destruct (Hgt (Z.lt_le_incl _ _ Hlong)) as (Ho & _ & _).
  assert (Hcalls : calls_in (fun c => negb (is_mark c))
                     (_get_channel_info_internal T request))
    by (apply calls_in_internal; intros; reflexivity).
  destruct (Hcalls (under d w1)) as (body & Ht & Hbody).
  assert (Hrun : get_channel_info T request w =
            (Raise (TimeoutError timeout_message),
             pool_event ReleaseClient
               (pool_event MarkAsBan
                  {| clock := clock (snd (_get_channel_info_internal T request (under d w1)));
                     deadline := deadline w1;
                     trace := trace (snd (_get_channel_info_internal T request (under d w1))) |}))).
  { unfold get_channel_info, finally, try_except, wait_for.
    change {| clock := clock (pool_event GetClient w);
              deadline := Some (clock (pool_event GetClient w) + seconds 60);
              trace := trace (pool_event GetClient w) |} with (under d w1).
    destruct (_get_channel_info_internal T request (under d w1)) as [o wd].
    simpl in Ho. subst o. reflexivity. }
  assert (Hnew : new_events w (snd (get_channel_info T request w)) =
            ((GetClient, Returned) :: body ++
             [(MarkAsBan, Returned); (ReleaseClient, Returned)])%list).
  { apply new_events_app. rewrite Hrun. simpl. rewrite Ht. simpl.
    rewrite <- !app_assoc. reflexivity. }
  assert (Hzero : marks body = O) by now apply marks_none.
  repeat apply conj.
  - now rewrite Hrun.
  - rewrite Hnew.
    change ((GetClient, Returned) :: body ++
            [(MarkAsBan, Returned); (ReleaseClient, Returned)])%list
      with ([(GetClient, Returned)] ++ body ++
            [(MarkAsBan, Returned); (ReleaseClient, Returned)])%list.
    rewrite !marks_app, Hzero. reflexivity.
  - exists body. split; assumption.
  - discriminate.
  - reflexivity.
  - intros s l m Hin.
    repeat (apply elem_of_cons in Hin as [Hin|Hin]; [discriminate|]).
    inversion Hin.
Qed.

Lemma deadline_expiry_marks_the_session_once_witness :
  fst (get_channel_info stalled (foo_request false) (start 0)) =
    Raise (TimeoutError timeout_message) /\
  new_events (start 0)
    (snd (get_channel_info stalled (foo_request false) (start 0))) =
    [(GetClient, Returned);
     (GetEntity "https://t.me/foo", Returned);
     (GetFullChannel foo, Interrupted);
     (MarkAsBan, Returned);
     (ReleaseClient, Returned)] /\
  marks (new_events (start 0)
           (snd (get_channel_info stalled (foo_request false) (start 0)))) = 1%nat.
Proof.
  destruct (deadline_expiry_marks_the_session_once stalled (foo_request false)
              (start 0) eq_refl) as (Hfail & Hmarks & _).
  - vm_compute. reflexivity.
  - repeat apply conj; [exact Hfail|reflexivity|exact Hmarks].
Defined.

End Service.

(** ** Further properties of the persistence service *)

Section History.
Import Database DatabaseFacts HistoryFacts Scenarios.

(** X1. [get_24h_statistics] raises [ChannelDoesNotExistError] for an
    unknown id and succeeds for every known one, with one item per
    statistics row of the channel and the sorting that was asked for: a
    channel with no statistics row has an empty history, where
    [get_channel] raises [StatsDoesNotExistError]. *)
Theorem history_of_unknown_and_of_empty_channels
    (d : db) (id : Z) (s : StatisticsSorting) :
  (channels d !! id = None ->
   get_24h_statistics d id s = Err (ChannelDoesNotExistError (KId id))) /\
  (is_Some (channels d !! id) ->
   exists r,
     get_24h_statistics d id s = Ok r /\
     sorting r = s /\
     length (data r) = length (stats_of d id)) /\
  (is_Some (channels d !! id) -> stats_of d id = [] ->
   get_24h_statistics d id s = Ok {| sorting := s; data := [] |} /\
   get_channel d id = Err (StatsDoesNotExistError (KId id))) /\
  (forall r, get_24h_statistics d id s = Ok r ->
             sorting r = s /\ length (data r) = length (stats_of d id)).
Proof.
  repeat apply conj.
  - intros H. unfold get_24h_statistics. now rewrite H.
  - intros Hc. eexists. split; [now apply get_24h_statistics_known|].
    split; [reflexivity|]. simpl.
    rewrite length_fmap. apply Permutation_length, ordered_stats_perm.
  - intros [c Hc] Hs. unfold get_24h_statistics, get_channel, ordered_stats.
    rewrite Hc, Hs. split; [|reflexivity]. now destruct s.
  - intros r Hr. apply get_24h_statistics_ok in Hr as (_ & Hs & ->).
    split; [exact Hs|].
    rewrite length_fmap. apply Permutation_length, ordered_stats_perm.
Qed.

Lemma history_of_unknown_and_of_empty_channels_witness :
  get_24h_statistics sample_db 8 NEWEST = Err (ChannelDoesNotExistError (KId 8)) /\
  get_24h_statistics sample_db 7 NEWEST = Ok {| sorting := NEWEST; data := [] |} /\
  get_channel sample_db 7 = Err (StatsDoesNotExistError (KId 7)) /\
  exists r,
    get_24h_statistics history_db 7 OLDEST = Ok r /\
    sorting r = OLDEST /\
    length (data r) = length (stats_of history_db 7).
Proof.
  pose proof (history_of_unknown_and_of_empty_channels sample_db 8 NEWEST)
    as (H1 & _).
  pose proof (history_of_unknown_and_of_empty_channels sample_db 7 NEWEST)
    as (_ & _ & H2 & _).
  pose proof (history_of_unknown_and_of_empty_channels history_db 7 OLDEST)
    as (_ & H3 & _).
  destruct H2 as [H2 H2']; [eexists; reflexivity|reflexivity|].
  split; [apply H1; reflexivity|].
  split; [exact H2|]. split; [exact H2'|].
  apply H3. eexists; reflexivity.
Defined.

(** X2. A history holds exactly the statistics rows of the channel, each
    once and none of another channel, newest first when [NEWEST] is asked
    for and oldest first otherwise. *)
Theorem history_is_complete_and_sorted
    (d : db) (id : Z) (s : StatisticsSorting) (r : Get24hStatisticsResponse) :
  get_24h_statistics d id s = Ok r ->
  data r ≡ₚ item_of <$> stats_of d id /\
  match s with
  | NEWEST => StronglySorted (fun a b => item_time b <= item_time a) (data r)
  | OLDEST => StronglySorted (fun a b => item_time a <= item_time b) (data r)
  end.
Proof.
  intros Hr. apply get_24h_statistics_ok in Hr as (_ & _ & ->). split.
  - now rewrite ordered_stats_perm.
  - destruct s.
    + eapply StronglySorted_fmap; [|apply ordered_newest_sorted].
      intros a b H. now apply whole_seconds_mono.
    + eapply StronglySorted_fmap; [|apply ordered_oldest_sorted].
      intros a b H. now apply whole_seconds_mono.
Qed.

Lemma history_is_complete_and_sorted_witness :
  data newest_history ≡ₚ item_of <$> stats_of history_db 7 /\
  StronglySorted (fun a b => item_time b <= item_time a) (data newest_history).
Proof.
  apply (history_is_complete_and_sorted history_db 7 NEWEST newest_history).
  reflexivity.
Defined.

(** X3. The two sortings list the same snapshots, and the times of the
    newest-first history are those of the oldest-first one read
    backwards. *)
Theorem newest_first_is_oldest_first_reversed
    (d : db) (id : Z) (rn ro : Get24hStatisticsResponse) :
  get_24h_statistics d id NEWEST = Ok rn ->
  get_24h_statistics d id OLDEST = Ok ro ->
  data rn ≡ₚ data ro /\
  item_time <$> data rn = reverse (item_time <$> data ro).
Proof.
  intros Hn Ho.
  apply get_24h_statistics_ok in Hn as (_ & _ & ->).
  apply get_24h_statistics_ok in Ho as (_ & _ & ->).
  assert (Hperm : ordered_stats d id NEWEST ≡ₚ ordered_stats d id OLDEST)
    by now rewrite !ordered_stats_perm.
  split; [now rewrite Hperm|].
  assert (Htrans : Transitive (flip Z.le)) by (intros a b c; unfold flip; lia).
  rewrite <- !list_fmap_compose.
  apply (Sorted_unique_strong (flip Z.le)).
  - unfold flip. intros; lia.
  - apply StronglySorted_Sorted.
    apply (StronglySorted_fmap _ recorded_later); [|apply ordered_newest_sorted].
    intros a b H. now apply whole_seconds_mono.
  - apply Sorted_reverse, StronglySorted_Sorted.
    apply (StronglySorted_fmap _ recorded_earlier); [|apply ordered_oldest_sorted].
    intros a b H. now apply whole_seconds_mono.
  - rewrite reverse_Permutation. now rewrite Hperm.
Qed.

Lemma newest_first_is_oldest_first_reversed_witness :
  data newest_history ≡ₚ data oldest_history /\
  item_time <$> data newest_history = reverse (item_time <$> data oldest_history).
Proof.
  apply (newest_first_is_oldest_first_reversed history_db 7); reflexivity.
Defined.

(** X4. An update adds one item to the history of its channel, with the
    counts of the update and the whole seconds of the time of the call,
    and leaves the history of every other channel as it was. *)
Theorem update_extends_the_history
    (d : db) (now : Z) (ch : ChannelInfo) (s : StatisticsSorting) :
  let d' := fst (update_or_create_channel d now ch) in
  (exists r,
     get_24h_statistics d' (channel_id ch) s = Ok r /\
     data r ≡ₚ
       {| item_views := views ch; item_subscribers := subscribers ch;
          item_posts_count := posts_count ch;
          item_time := whole_seconds now |} ::
       (item_of <$> stats_of d (channel_id ch))) /\
  (forall id, id <> channel_id ch ->
              get_24h_statistics d' id s = get_24h_statistics d id s).
Proof.
  intros d'. split.
  - eexists. split.
    + apply get_24h_statistics_known. subst d'.
      rewrite channels_after_update, decide_True by reflexivity. eauto.
    + simpl. rewrite ordered_stats_perm. subst d'.
      rewrite stats_of_update, decide_True by reflexivity.
      rewrite fmap_app. simpl. now rewrite Permutation_app_comm.
  - intros id Hne. unfold get_24h_statistics, ordered_stats. subst d'.
    rewrite channels_after_update, decide_False by congruence.
    rewrite stats_of_update_other by congruence. reflexivity.
Qed.

(** X5. A snapshot stored at an instant later than every earlier
    snapshot of its channel is what [get_channel] returns next: the
    channel as it was stored, dated with the whole seconds of the instant
    of the call.  The earlier snapshots may lie within the same second. *)
Theorem stored_snapshot_is_read_back (d : db) (now : Z) (ch : ChannelInfo) :
  (forall st, st ∈ stats_of d (channel_id ch) -> stat_recorded_at st < now) ->
  get_channel (fst (update_or_create_channel d now ch)) (channel_id ch) =
  Ok {| last_update := whole_seconds now; channel := ch |}.
Proof.
  intros Hlater. unfold get_channel.
  rewrite channels_after_update, decide_True by reflexivity.
  rewrite stats_of_update, decide_True by reflexivity.
  rewrite newest_snoc by exact Hlater.
  destruct ch; reflexivity.
Qed.

Lemma stored_snapshot_is_read_back_witness :
  get_channel (fst (update_or_create_channel history_db 30700000 (snapshot 9))) 7 =
  Ok {| last_update := 30; channel := snapshot 9 |}.
Proof.
  apply (stored_snapshot_is_read_back history_db 30700000 (snapshot 9)).
  intros st Hst. vm_compute in Hst.
  repeat (apply elem_of_cons in Hst as [->|Hst]; [reflexivity|]).
  inversion Hst.
Defined.

(** X6. An update changes nothing for the other channels: [get_channel]
    answers for them as before. *)
Theorem update_leaves_other_channels_alone
    (d : db) (now : Z) (ch : ChannelInfo) (id : Z) :
  id <> channel_id ch ->
  get_channel (fst (update_or_create_channel d now ch)) id = get_channel d id.
Proof.
  intros Hne. unfold get_channel.
  rewrite channels_after_update, decide_False by congruence.
  rewrite stats_of_update_other by congruence. reflexivity.
Qed.

Lemma update_leaves_other_channels_alone_witness :
  get_channel (fst (update_or_create_channel history_db 40 bar_snapshot)) 7 =
  get_channel history_db 7.
Proof.
  apply (update_leaves_other_channels_alone history_db 40 bar_snapshot 7).
  discriminate.
Defined.

(** X7. [get_channels_ids] lists each channel once; an id is listed
    exactly when [get_channel] does not raise [ChannelDoesNotExistError]
    for it; after an update the list holds the updated id and the ids
    listed before, and nothing else. *)
Theorem listed_ids_are_the_known_channels (d : db) :
  NoDup (get_channels_ids d) /\
  (forall id,
     id ∈ get_channels_ids d <->
     get_channel d id <> Err (ChannelDoesNotExistError (KId id))) /\
  (forall now ch id,
     id ∈ get_channels_ids (fst (update_or_create_channel d now ch)) <->
     id = channel_id ch \/ id ∈ get_channels_ids d).
Proof.
  split; [|split].
  - apply NoDup_fst_map_to_list.
  - intros id. rewrite get_channels_ids_elem. unfold get_channel. split.
    + intros [c ->]. destruct (newest _); discriminate.
    + destruct (channels d !! id); [eauto|congruence].
  - intros now ch id. rewrite !get_channels_ids_elem, channels_after_update.
    destruct (decide (channel_id ch = id)) as [->|Hne].
    + split; eauto.
    + split; [auto|]. intros [->|H]; [congruence|exact H].
Qed.

(** X8. [record_created] is true exactly when the id was not listed
    before the update; the update that follows for the same id reports
    false; and the number of channels grows by one when a record is
    created and stays the same otherwise. *)
Theorem record_created_tells_new_channels (d : db) (now : Z) (ch : ChannelInfo) :
  let after := update_or_create_channel d now ch in
  (record_created (snd after) = true <-> channel_id ch ∉ get_channels_ids d) /\
  (forall now' ch',
     channel_id ch' = channel_id ch ->
     record_created (snd (update_or_create_channel (fst after) now' ch')) = false) /\
  length (get_channels_ids (fst after)) =
    (length (get_channels_ids d) + if record_created (snd after) then 1 else 0)%nat.
Proof.
  intros after. split; [|split].
  - simpl. rewrite bool_decide_eq_true, get_channels_ids_elem.
    apply eq_None_not_Some.
  - intros now' ch' Hid. simpl. apply bool_decide_eq_false.
    rewrite Hid, lookup_insert_eq. discriminate.
  - unfold get_channels_ids. rewrite !length_fmap, !length_map_to_list. simpl.
    destruct (channels d !! channel_id ch) as [c|] eqn:Hc.
    + rewrite map_size_insert_Some by eauto.
      rewrite bool_decide_eq_false_2 by discriminate. lia.
    + rewrite map_size_insert_None by exact Hc.
      rewrite bool_decide_eq_true_2 by reflexivity. lia.
Qed.

(** X9. The two readers agree: the time [get_channel] reports as last
    update is the time of the first item of the newest-first history, and
    no item of that history is later. *)
Theorem last_update_heads_the_newest_history
    (d : db) (id : Z) (r : GetChannelResponse) :
  get_channel d id = Ok r ->
  exists h,
    get_24h_statistics d id NEWEST = Ok h /\
    item_time <$> head (data h) = Some (last_update r) /\
    forall it, it ∈ data h -> item_time it <= last_update r.
Proof.
  unfold get_channel. destruct (channels d !! id) as [c|] eqn:Hc; [|discriminate].
  destruct (newest (stats_of d id)) as [st|] eqn:Hst; [|discriminate].
  intros [= <-]. cbn [last_update response].
  exists {| sorting := NEWEST; data := item_of <$> ordered_stats d id NEWEST |}.
  split; [apply get_24h_statistics_known; eauto|]. cbn [data].
  pose proof (newest_elem _ _ Hst) as Hin.
  pose proof (ordered_stats_perm d id NEWEST) as Hperm.
  pose proof (ordered_newest_sorted d id) as Hsorted.
  assert (Hle : forall x, x ∈ ordered_stats d id NEWEST ->
                          stat_recorded_at x <= stat_recorded_at st).
  { intros x Hx. rewrite Hperm in Hx. eapply newest_greatest; eauto. }
  split.
  - rewrite <- Hperm in Hin.
    destruct (ordered_stats d id NEWEST) as [|x rest]; [inversion Hin|].
    cbn [head fmap list_fmap option_fmap option_map].
    rewrite item_time_of. f_equal. f_equal.
    assert (stat_recorded_at x <= stat_recorded_at st) by (apply Hle; left).
    apply elem_of_cons in Hin as [->|Hin]; [reflexivity|].
    apply StronglySorted_inv in Hsorted as [_ Hall].
    rewrite Forall_forall in Hall. specialize (Hall st Hin).
    unfold recorded_later in Hall. lia.
  - intros it Hit. apply list_elem_of_fmap in Hit as (x & -> & Hx).
    rewrite item_time_of. now apply whole_seconds_mono, Hle.
Qed.

Lemma last_update_heads_the_newest_history_witness :
  exists h,
    get_24h_statistics history_db 7 NEWEST = Ok h /\
    item_time <$> head (data h) = Some 30 /\
    forall it, it ∈ data h -> item_time it <= 30.
Proof.
  apply (last_update_heads_the_newest_history history_db 7
           {| last_update := 30; channel := snapshot 1 |}).
  reflexivity.
Defined.

(** X10. A channel stored under a link that no other channel carries is
    found by [get_channel_by_link] under every reference that
    normalizes to that link, in particular the link preceded by
    [https://] or [http://]. *)
Theorem stored_link_is_found_under_any_scheme
    (d : db) (now : Z) (ch : ChannelInfo) :
  (forall j c, channels d !! j = Some c -> j <> channel_id ch ->
               row_link c <> link ch) ->
  let d' := fst (update_or_create_channel d now ch) in
  (forall l, strip_scheme l = link ch ->
     exists r, get_channel_by_link d' l = Ok r /\
               channel_id (channel r) = channel_id ch /\
               link (channel r) = link ch) /\
  (exists r, get_channel_by_link d' ("https://" ++ link ch) = Ok r) /\
  (exists r, get_channel_by_link d' ("http://" ++ link ch) = Ok r).
Proof.
  intros Hfree d'. subst d'.
  split; [intros l Hl; now apply found_by_link_after_update|].
  split.
  - destruct (found_by_link_after_update d now ch ("https://" ++ link ch) Hfree)
      as (r & Hr & _); [reflexivity|eauto].
  - destruct (found_by_link_after_update d now ch ("http://" ++ link ch) Hfree)
      as (r & Hr & _); [reflexivity|eauto].
Qed.

Lemma stored_link_is_found_under_any_scheme_witness :
  exists r,
    get_channel_by_link (fst (update_or_create_channel history_db 40 bar_snapshot))
      "https://t.me/bar" = Ok r.
Proof.
  destruct (stored_link_is_found_under_any_scheme history_db 40 bar_snapshot)
    as (_ & H & _).
  - intros j c Hj _. vm_compute in Hj.
    destruct j as [|[p|p|]|]; try discriminate Hj;
      destruct p as [p|p|]; try discriminate Hj;
      destruct p as [p|p|]; try discriminate Hj.
    injection Hj as <-. discriminate.
  - exact H.
Defined.

End History.

(** ** Further properties of the resolution *)

Section ResolutionMore.
Import Parser Window Runs Scenarios ParserFacts RunFacts ServiceFacts.

(** X11. The invite hash is what follows the last [/] of the reference,
    without one leading [+]; a reference that ends in [/] has the empty
    hash, and one with no [/] is its own last segment.  The join
    protocol starts by submitting that hash. *)
Theorem invite_hash_is_the_last_segment :
  (forall base h, occurs "/" h = false ->
                  invite_hash_of (base ++ "/+" ++ h) = h) /\
  (forall base h, occurs "/" h = false -> Py.startswith h "+" = false ->
                  invite_hash_of (base ++ "/" ++ h) = h) /\
  (forall base, invite_hash_of (base ++ "/") = "") /\
  (forall h, occurs "/" h = false -> Py.startswith h "+" = false ->
             invite_hash_of h = h) /\
  (forall T url, starts_with (ImportChatInvite (invite_hash_of url))
                             (join_private_channel T url)).
Proof.
  repeat apply conj.
  - intros base h Hh. unfold invite_hash_of.
    change (base ++ "/+" ++ h) with (base ++ String "/" (String "+" h)).
    rewrite last_segment by exact Hh. reflexivity.
  - intros base h Hh Hplus. unfold invite_hash_of.
    change (base ++ "/" ++ h) with (base ++ String "/" h).
    rewrite last_segment by exact Hh. now rewrite Hplus.
  - intros base. unfold invite_hash_of.
    change (base ++ "/") with (base ++ String "/" "").
    now rewrite last_segment.
  - intros h Hh Hplus. unfold invite_hash_of.
    rewrite (split_without_separator _ _ Hh).
    change (Py.last_item [h]) with h. now rewrite Hplus.
  - apply join_starts_with_the_invite.
Qed.

Lemma invite_hash_is_the_last_segment_witness :
  invite_hash_of "https://t.me/+AbCdEf" = "AbCdEf" /\
  invite_hash_of "https://t.me/joinchat/AbCdEf" = "AbCdEf".
Proof.
  destruct invite_hash_is_the_last_segment as (H1 & H2 & _).
  split.
  - apply (H1 "https://t.me" "AbCdEf"). reflexivity.
  - apply (H2 "https://t.me/joinchat" "AbCdEf"); reflexivity.
Defined.

(** X12. A direct lookup that does not report "not found" settles the
    resolution with that single call: the entity it returned, or
    [CannotGetChannelInfo] for an empty result, [FloodWait] for a rate
    limit and [InvalidChannelLink] with the message of any other
    exception.  In particular an account ban reported by the direct
    lookup becomes [InvalidChannelLink], not [UserBan]. *)
Theorem direct_lookup_settles_the_resolution
    (T : Telegram) (l : string) (w : world) :
  deadline w = None ->
  let r := get_entity T (clock w) (trace w) l in
  let run := get_channel_entity T l w in
  (forall c, result r = Returns (Some c) ->
     fst run = Ok c /\ calls (new_events w (snd run)) = [GetEntity l]) /\
  (result r = Returns None ->
     fst run = Raise (CannotGetChannelInfo l) /\
     calls (new_events w (snd run)) = [GetEntity l]) /\
  (forall e, result r = Raises e -> not_found (Raised e) = false ->
     fst run = Raise (match e with
                      | FloodWaitError s _ => FloodWait s
                      | _ => InvalidChannelLink l (str e)
                      end) /\
     calls (new_events w (snd run)) = [GetEntity l]) /\
  (forall m, result r = Raises (UserDeactivatedBanError m) ->
     fst run = Raise (InvalidChannelLink l m)).
Proof.
  intros Hd r run. subst run r.
  unfold get_channel_entity, bind, try_except, client_get_entity, ask.
  rewrite (await_no_deadline _ _ _ Hd).
  repeat apply conj.
  - intros c ->. split; [reflexivity|].
    simpl. now rewrite (new_events_app w _ [(GetEntity l, Returned)]).
  - intros ->. split; [reflexivity|].
    simpl. now rewrite (new_events_app w _ [(GetEntity l, Returned)]).
  - intros e -> Hnf. destruct e; try discriminate Hnf;
      (split; [reflexivity|]); simpl;
      match goal with
      | |- context [record _ ?st _ _] =>
          now rewrite (new_events_app w _ [(GetEntity l, st)])
      end.
  - intros m ->. reflexivity.
Qed.

Lemma direct_lookup_settles_the_resolution_witness :
  fst (get_channel_entity throttled "t.me/foo" (start 0)) = Ok foo /\
  calls (new_events (start 0)
           (snd (get_channel_entity throttled "t.me/foo" (start 0)))) =
    [GetEntity "t.me/foo"].
Proof.
  destruct (direct_lookup_settles_the_resolution throttled "t.me/foo" (start 0)
              eq_refl) as (H & _).
  apply (H foo). reflexivity.
Defined.

(** X13. When the join request is accepted at once, or the account
    already takes part, the join protocol makes one lookup right after
    the request, with no sleep, and ends exactly as that lookup ends:
    with the entity the platform returns at that moment, or the exception
    it raises.  When the request raises anything other than these two
    signals and the queued one, the protocol ends with that exception and
    makes no lookup. *)
Theorem join_without_queue_looks_up_once
    (T : Telegram) (url : string) (w : world) :
  deadline w = None ->
  let r := import_chat_invite T (clock w) (trace w) (invite_hash_of url) in
  let a := result r in
  let run := join_private_channel T url w in
  ((a = Returns tt \/ exists m, a = Raises (UserAlreadyParticipantError m)) ->
   exists st1 st2,
     new_events w (snd run) =
       [(ImportChatInvite (invite_hash_of url), st1); (GetEntity url, st2)] /\
     agrees st2 (fst run) /\
     let w1 := record (ImportChatInvite (invite_hash_of url)) st1
                 (clock w + Z.of_N (latency r)) w in
     st1 = status_of a /\
     st2 = status_of (result (get_entity T (clock w1) (trace w1) url)) /\
     run = client_get_entity T url w1 /\
     fst run = outcome_of (result (get_entity T (clock w1) (trace w1) url))) /\
  (forall e, a = Raises e ->
     (forall m, e <> UserAlreadyParticipantError m) ->
     (forall m, e <> InviteRequestSentError m) ->
     fst run = Raise e /\
     new_events w (snd run) = [(ImportChatInvite (invite_hash_of url), Raised e)]).
Proof.
  intros Hd r a run. subst a run.
  split.
  - intros Ha. rewrite (join_then_lookup T url w Hd Ha). fold r.
    set (w1 := record _ (status_of (result r)) _ w).
    exists (status_of (result r)),
      (status_of (result (get_entity T (clock w1) (trace w1) url))).
    rewrite (client_get_entity_run T url w1 Hd). cbn [fst snd].
    split; [|split; [apply agrees_status_of|repeat split]].
    + apply new_events_app. unfold w1. rewrite !record_trace, <- app_assoc.
      reflexivity.
    + symmetry. exact (client_get_entity_run T url w1 Hd).
  - unfold join_private_channel, bind, try_except, ask.
    rewrite (await_no_deadline _ _ _ Hd). fold r.
    intros e He Hnp Hnq. rewrite He.
    destruct e; try (now exfalso; eapply Hnp); try (now exfalso; eapply Hnq);
      (split; [reflexivity|]); simpl;
      match goal with
      | |- context [record ?c ?st _ _] =>
          now rewrite (new_events_app w _ [(c, st)])
      end.
Qed.

Lemma join_without_queue_looks_up_once_witness :
  fst (join_private_channel throttled "https://t.me/+AbCdEf" (start 0)) = Ok (Some foo) /\
  exists st1 st2,
    new_events (start 0)
      (snd (join_private_channel throttled "https://t.me/+AbCdEf" (start 0))) =
      [(ImportChatInvite "AbCdEf", st1);
       (GetEntity "https://t.me/+AbCdEf", st2)] /\
    agrees st2 (fst (join_private_channel throttled "https://t.me/+AbCdEf" (start 0))).
Proof.
  destruct (join_without_queue_looks_up_once throttled "https://t.me/+AbCdEf"
              (start 0) eq_refl) as (H & _).
  destruct (H (or_introl eq_refl)) as (st1 & st2 & Hnew & Hag & Hst1 & _ & _ & Hout).
  split.
  - rewrite Hout, Hst1. reflexivity.
  - exists st1, st2. split; assumption.
Defined.

(** X14. An exception that leaves the resolution is one of the four
    kinds [FloodWait], [UserBan], [InvalidChannelLink] and
    [CannotGetChannelInfo], unless the direct lookup reported "not found"
    and the join protocol raised it, it being none of the three
    exceptions translated there. *)
Theorem untranslated_errors_come_from_the_join
    (T : Telegram) (l : string) (w : world) (e : exn) :
  fst (get_channel_entity T l w) = Raise e ->
  resolution_error e = true \/
  exists m w1,
    client_get_entity T l w = (Raise (ValueError m), w1) /\
    fst (join_private_channel T l w1) = Raise e /\
    is_flood e = false /\
    (forall m', e <> InviteHashExpiredError m') /\
    (forall m', e <> UserDeactivatedBanError m').
Proof.
  unfold get_channel_entity, bind, try_except.
  destruct (client_get_entity T l w) as [[[c|]|ex|] w1] eqn:E; simpl;
    try discriminate.
  - intros [= <-]. now left.
  - destruct ex; simpl; try (intros [= <-]; now left).
    destruct (join_private_channel T l w1) as [[[c|]|e'|] w2] eqn:J; simpl;
      try discriminate.
    + intros [= <-]. now left.
    + destruct e'; simpl; intros [= <-]; try (now left);
        right; exists msg, w1; rewrite J;
        repeat apply conj; try reflexivity; discriminate.
Qed.

Lemma untranslated_errors_come_from_the_join_witness :
  resolution_error no_such_entity = true \/
  exists m w1,
    client_get_entity pending "https://t.me/+AbCdEf" (start 0) =
      (Raise (ValueError m), w1) /\
    fst (join_private_channel pending "https://t.me/+AbCdEf" w1) =
      Raise no_such_entity /\
    is_flood no_such_entity = false /\
    (forall m', no_such_entity <> InviteHashExpiredError m') /\
    (forall m', no_such_entity <> UserDeactivatedBanError m').
Proof.
  apply (untranslated_errors_come_from_the_join pending "https://t.me/+AbCdEf"
           (start 0) no_such_entity).
  reflexivity.
Defined.

(** X20. After a queued join request every retry lookup costs its
    10-second sleep: the join protocol takes at least 10 seconds for each
    retry it makes, so at least 30 of the 60 seconds of the deadline when
    the request is never approved. *)
Theorem retries_take_ten_seconds_each
    (T : Telegram) (url : string) (w : world) :
  deadline w = None -> queued T url w ->
  seconds 10 *
    Z.of_nat (retry_lookups (new_events w (snd (join_private_channel T url w))))
  <= clock (snd (join_private_channel T url w)) - clock w.
Proof.
  intros Hd [msg Hq]. rewrite (join_queued T url w msg Hd Hq).
  set (w0 := record _ _ _ w).
  assert (Hw0 : clock w <= clock w0).
  { unfold w0. simpl. pose proof (N2Z.is_nonneg (latency (import_chat_invite T
      (clock w) (trace w) (invite_hash_of url)))). lia. }
  destruct (poll_duration T url 3 w0 Hd) as (sts & Ht & Hc & Hd').
  assert (Hnew : forall w' tail,
            trace w' = (trace (snd (poll T 3 url w0)) ++ tail)%list ->
            retry_lookups (new_events w w') =
            (length sts + retry_lookups tail)%nat).
  { intros w' tail Hw'.
    rewrite (new_events_app w w'
               ((ImportChatInvite (invite_hash_of url),
                 Raised (InviteRequestSentError msg)) :: retries url sts ++ tail)).
    - simpl. apply retry_lookups_retries.
    - rewrite Hw', Ht. unfold w0. rewrite record_trace, <- !app_assoc. reflexivity. }
  destruct (poll T 3 url w0) as [[[e|]|e|] w'] eqn:Hp;
    cbv iota beta; cbn [fst snd] in *;
    try (rewrite (Hnew w' []) by (now rewrite app_nil_r);
         change (retry_lookups []) with O;
         rewrite Nat.add_0_r; lia).
  destruct (client_get_entity_no_deadline T url w' Hd') as (st & Ht' & _).
  destruct (keeps_time_client_get_entity T url w' (clock w' + 1) Hd'
              ltac:(lia)) as (Hmono & _).
  rewrite (Hnew _ [(GetEntity url, st)] Ht').
  change (retry_lookups [(GetEntity url, st)]) with O.
  rewrite Nat.add_0_r. lia.
Qed.

Lemma retries_take_ten_seconds_each_witness :
  seconds 30 <=
  clock (snd (join_private_channel pending "https://t.me/+AbCdEf" (start 0))) - 0.
Proof.
  apply (retries_take_ten_seconds_each pending "https://t.me/+AbCdEf" (start 0)
           eq_refl (ex_intro _ _ eq_refl)).
Defined.

End ResolutionMore.

(** ** Further properties of the scan and of the service *)

Section ServiceMore.
Import Parser Window Runs Scenarios ParserFacts RunFacts ServiceFacts.

(** X15. Whatever the order of the stream, the scan counts the posts of
    the window that come before the first post older than the cutoff
    and returns the views of the last of them that carries any; nothing
    the stream holds after that older post is requested, be it posts of
    the window or an exception.  A stream that only holds posts of the
    window is counted whole. *)
Theorem scan_stops_at_the_first_older_post
    (T : Telegram) (entity : Channel) (w : world) (run : list Message) :
  deadline w = None ->
  Forall (fun p => in_window (clock w - hours 24) p = true) run ->
  let stream := iter_messages T (clock w) (trace w) entity (now_utc (clock w)) in
  let counted :=
    Ok (default 0 (last (omap message_views run)), Z.of_nat (length run)) in
  (forall s1 r s2 older,
     stream = (s1 ++ r :: s2)%list -> delivers s1 run ->
     result r = Returns older -> in_window (clock w - hours 24) older = false ->
     fst (__get_posts T entity w) = counted /\
     pulled (new_events w (snd (__get_posts T entity w))) = S (length run)) /\
  (delivers stream run -> fst (__get_posts T entity w) = counted).
Proof.
  intros Hd Hin stream counted. subst stream counted.
  unfold __get_posts, bind, now.
  set (w0 := record (IterMessages entity (now_utc (clock w))) Returned (clock w) w).
  split.
  - intros s1 r s2 older -> Hs Hr Hold.
    destruct (async_for_scan T (clock w) run s1 (r :: s2) 0 0 w0 Hd Hs Hin)
      as (w' & Hrun & Hd' & Ht).
    rewrite Hrun. simpl async_for. unfold bind.
    rewrite (await_no_deadline _ _ _ Hd'), Hr, scan_post_unfold, Hold.
    split; [reflexivity|]. simpl snd.
    rewrite (new_events_app w _
               ([(IterMessages entity (now_utc (clock w)), Returned)] ++
                replicate (length run) (NextMessage, Returned) ++
                [(NextMessage, Returned)])).
    + rewrite !pulled_app, pulled_replicate.
      change (pulled [(IterMessages entity (now_utc (clock w)), Returned)]) with O.
      change (pulled [(NextMessage, Returned)]) with 1%nat. lia.
    + rewrite record_trace, Ht. unfold w0. rewrite record_trace.
      rewrite <- !app_assoc. reflexivity.
  - intros Hs.
    destruct (async_for_scan T (clock w) run _ [] 0 0 w0 Hd Hs Hin)
      as (w' & Hrun & _).
    rewrite app_nil_r in Hrun. rewrite Hrun. reflexivity.
Qed.

Lemma scan_stops_at_the_first_older_post_witness :
  fst (__get_posts shuffled foo (start 0)) = Ok (10, 1) /\
  pulled (new_events (start 0) (snd (__get_posts shuffled foo (start 0)))) = 2%nat.
Proof.
  destruct (scan_stops_at_the_first_older_post shuffled foo (start 0)
              [post_at 0 (hours 1) (Some 10)] eq_refl) as (H & _).
  - repeat constructor.
  - apply (H [at_once (Returns (post_at 0 (hours 1) (Some 10)))]
             (at_once (Returns (post_at 0 (hours 30) (Some 20))))
             [at_once (Returns (post_at 0 (hours 2) (Some 30)));
              at_once (Raises wait_30)]
             (post_at 0 (hours 30) (Some 20))); reflexivity.
Defined.

(** X16. Every run of [get_channel_info], however it ends, obtains the
    client first and releases it last, once each, and leaves no deadline
    of its own behind. *)
Theorem client_is_obtained_first_and_released_last
    (T : Telegram) (request : GetChannelInfoRequest) (w : world) :
  exists body,
    Forall (fun ev => inner (fst ev) = true) body /\
    (new_events w (snd (get_channel_info T request w)) =
       ((GetClient, Returned) :: body ++ [(ReleaseClient, Returned)])%list \/
     new_events w (snd (get_channel_info T request w)) =
       ((GetClient, Returned) :: body ++
        [(MarkAsBan, Returned); (ReleaseClient, Returned)])%list) /\
  deadline (snd (get_channel_info T request w)) = deadline w.
Proof.
  destruct (get_channel_info_shape T request w) as (body & Ht & Hbody & Hd & Hrun).
  exists body. split; [exact Hbody|].
  rewrite Hrun.
  destruct (wait_for _ _ _) as [[a|e|] w']; simpl in *;
    [|destruct e|]; simpl; (split; [|exact Hd]);
    match goal with
    | |- context [MarkAsBan] =>
        right; apply new_events_app; simpl; rewrite Ht, <- !app_assoc; reflexivity
    | _ => left; apply new_events_app; simpl; rewrite Ht, <- !app_assoc; reflexivity
    end.
Qed.

(** X17. In any run of [get_channel_info] the client is marked as banned
    at most once, and exactly in the runs that end with the
    [TimeoutError] of line 115; every exception of the timeout class
    that leaves the method is that one.  A timeout the client raises
    inside the orchestration, be it [asyncio]'s or one with a message,
    is caught like the expiry of the deadline: the client is marked and
    the [TimeoutError] of line 115 raised in its place. *)
Theorem a_marked_client_means_timeout
    (T : Telegram) (request : GetChannelInfoRequest) (w : world) :
  (marks (new_events w (snd (get_channel_info T request w))) <= 1)%nat /\
  (marks (new_events w (snd (get_channel_info T request w))) = 1%nat <->
   fst (get_channel_info T request w) = Raise (TimeoutError timeout_message)) /\
  (forall e, fst (get_channel_info T request w) = Raise e ->
             is_timeout e = true -> e = TimeoutError timeout_message) /\
  (forall e,
     fst (_get_channel_info_internal T request
            (under (clock w + seconds 60) (pool_event GetClient w))) = Raise e ->
     is_timeout e = true ->
     fst (get_channel_info T request w) = Raise (TimeoutError timeout_message) /\
     marks (new_events w (snd (get_channel_info T request w))) = 1%nat).
Proof.
  destruct (get_channel_info_shape T request w) as (body & Ht & Hbody & _ & Hrun).
  pose proof (marks_inner body Hbody) as Hzero.
  pose proof (wait_for_raise (_get_channel_info_internal T request) (seconds 60)
                (pool_event GetClient w)) as Hraise.
  rewrite Hrun. clear Hrun.
  destruct (wait_for _ _ _) as [[a|e|] w']; simpl in *;
    [|destruct (is_timeout e) eqn:Htimeout|]; simpl;
    match goal with
    | |- context [MarkAsBan] =>
        rewrite (new_events_app w _
                   ([(GetClient, Returned)] ++ body ++
                    [(MarkAsBan, Returned); (ReleaseClient, Returned)]))
          by (simpl; rewrite Ht, <- !app_assoc; reflexivity)
    | _ =>
        rewrite (new_events_app w _
                   ([(GetClient, Returned)] ++ body ++ [(ReleaseClient, Returned)]))
          by (simpl; rewrite Ht, <- !app_assoc; reflexivity)
    end;
    rewrite !marks_app, Hzero;
    change (marks [(GetClient, Returned)]) with O;
    try change (marks [(ReleaseClient, Returned)]) with O;
    try change (marks [(MarkAsBan, Returned); (ReleaseClient, Returned)]) with 1%nat.
  - split; [lia|]. split; [split; [lia|discriminate]|].
    split; [discriminate|].
    intros ex Hex. specialize (Hraise ex Hex). discriminate.
  - split; [lia|]. split; [split; reflexivity|].
    split; [now intros ex [= <-] _|].
    intros ex Hex _. split; reflexivity.
  - pose proof (is_timeout_message e Htimeout) as Hne.
    split; [lia|]. split; [split; [lia|intros [= E]; contradiction]|].
    split; [intros ex [= <-] H; congruence|].
    intros ex Hex H. specialize (Hraise ex Hex). injection Hraise as <-. congruence.
  - split; [lia|]. split; [split; [lia|discriminate]|].
    split; [discriminate|].
    intros ex Hex. specialize (Hraise ex Hex). discriminate.
Qed.

Lemma a_marked_client_means_timeout_witness :
  fst (get_channel_info timing_out (foo_request false) (start 0)) =
    Raise (TimeoutError timeout_message) /\
  marks (new_events (start 0)
           (snd (get_channel_info timing_out (foo_request false) (start 0)))) = 1%nat.
Proof.
  destruct (a_marked_client_means_timeout timing_out (foo_request false) (start 0))
    as (_ & _ & _ & H).
  apply (H (TimeoutError "timed out")); reflexivity.
Defined.

(** X18. No timeout is invented: when the orchestration, left to itself,
    ends before 60 seconds have passed since the client was obtained and
    raises no exception of the timeout class, [get_channel_info] ends as
    the orchestration does, makes exactly its calls between obtaining
    and releasing the client, and never marks the client. *)
Theorem no_timeout_within_the_deadline
    (T : Telegram) (request : GetChannelInfoRequest) (w : world) :
  deadline w = None ->
  let w1 := pool_event GetClient w in
  let free := _get_channel_info_internal T request w1 in
  clock (snd free) < clock w + seconds 60 ->
  (forall e, fst free = Raise e -> is_timeout e = false) ->
  fst (get_channel_info T request w) = fst free /\
  new_events w (snd (get_channel_info T request w)) =
    ((GetClient, Returned) :: new_events w1 (snd free) ++
     [(ReleaseClient, Returned)])%list /\
  marks (new_events w (snd (get_channel_info T request w))) = O.
Proof.
  intros Hd w1 free Hfast Hnot.
  assert (Hd1 : deadline w1 = None) by exact Hd.
  assert (Hc1 : clock w1 < clock w1 + seconds 60) by (unfold seconds; lia).
  destruct (keeps_time_internal T request w1 (clock w1 + seconds 60) Hd1 Hc1)
    as (_ & _ & Hnc & Hlt & _).
  specialize (Hlt Hfast). fold free in Hlt, Hnc.
  assert (Hinner : calls_in inner (_get_channel_info_internal T request))
    by (apply calls_in_internal; intros; reflexivity).
  destruct (Hinner w1) as (body & Ht & Hbody). fold free in Ht.
  assert (Hrun : get_channel_info T request w =
            (fst free,
             pool_event ReleaseClient
               {| clock := clock (snd free); deadline := None;
                  trace := trace (snd free) |})).
  { unfold get_channel_info, finally, try_except, wait_for.
    change {| clock := clock (pool_event GetClient w);
              deadline := Some (clock (pool_event GetClient w) + seconds 60);
              trace := trace (pool_event GetClient w) |}
      with (under (clock w1 + seconds 60) w1).
    rewrite Hlt. simpl. rewrite Hd.
    destruct (fst free) as [a|e|]; [reflexivity| |contradiction].
    specialize (Hnot e eq_refl). destruct e; try reflexivity; discriminate. }
  assert (Hnew : new_events w (snd (get_channel_info T request w)) =
            ([(GetClient, Returned)] ++ body ++ [(ReleaseClient, Returned)])%list).
  { apply new_events_app. rewrite Hrun. simpl. rewrite Ht. simpl.
    rewrite <- !app_assoc. reflexivity. }
  repeat apply conj.
  - now rewrite Hrun.
  - rewrite Hnew, (new_events_app w1 _ body Ht). reflexivity.
  - rewrite Hnew, !marks_app, (marks_inner body Hbody). reflexivity.
Qed.

Lemma no_timeout_within_the_deadline_witness :
  fst (get_channel_info pending invite_request (start 0)) = Raise no_such_entity /\
  marks (new_events (start 0)
           (snd (get_channel_info pending invite_request (start 0)))) = O.
Proof.
  destruct (no_timeout_within_the_deadline pending invite_request (start 0) eq_refl)
    as (H1 & _ & H3).
  - vm_compute. reflexivity.
  - intros e He. vm_compute in He. injection He as <-. reflexivity.
  - split; [rewrite H1; reflexivity|exact H3].
Defined.

(** X19. A profile retrieved for a reference and then stored is found
    again by [get_channel_by_link] under that same reference, as long as
    no other channel carries its link. *)
Theorem stored_profile_is_found_under_its_reference
    (T : Telegram) (request : GetChannelInfoRequest) (w : world)
    (resp : GetChannelInfoResponse) (d : Database.db) (now : Z) :
  fst (get_channel_info T request w) = Ok resp ->
  (forall j c, Database.channels d !! j = Some c ->
               j <> channel_id (channel resp) ->
               Database.row_link c <> link (channel resp)) ->
  exists r,
    Database.get_channel_by_link
      (fst (Database.update_or_create_channel d now (channel resp)))
      (channel_link request) = Database.Ok r /\
    channel_id (Database.channel r) = channel_id (channel resp) /\
    link (Database.channel r) = strip_scheme (channel_link request).
Proof.
  intros Hresp Hfree.
  apply get_channel_info_ok in Hresp. apply internal_link in Hresp.
  destruct (HistoryFacts.found_by_link_after_update d now (channel resp)
              (channel_link request) Hfree (eq_sym Hresp)) as (r & Hr & Hid & Hl).
  exists r. repeat apply conj; [exact Hr|exact Hid|congruence].
Qed.

Lemma stored_profile_is_found_under_its_reference_witness :
  exists r,
    Database.get_channel_by_link
      (fst (Database.update_or_create_channel Database.empty_db 40
              {| channel_id := 7; link := "t.me/foo"; name := "Foo";
                 description := "about foo"; subscribers := 120;
                 views := 10; posts_count := 2 |}))
      "https://t.me/foo" = Database.Ok r /\
    channel_id (Database.channel r) = 7 /\
    link (Database.channel r) = "t.me/foo".
Proof.
  apply (stored_profile_is_found_under_its_reference no_photo (foo_request true)
           (start 0)
           {| channel := {| channel_id := 7; link := "t.me/foo"; name := "Foo";
                            description := "about foo"; subscribers := 120;
                            views := 10; posts_count := 2 |};
              logo := None |}
           Database.empty_db 40).
  - reflexivity.
  - intros j c Hj. simpl in Hj. now rewrite lookup_empty in Hj.
Defined.

End ServiceMore.
